(** * NGNX.Driver and NGNX.Controller (chassis-libx): a shallow embedding

    The two facade classes of [src/driver.js] and [src/controller.js] are
    translated method by method.  Everything the classes reach through the
    globals [NGN], [NGNX], [document] and [console] is gathered in one record,
    [World], which the methods thread through a state-and-exception monad.
    The answers of the collaborators that the source cannot see into (the
    templating primitive, the selector engine, the SVG helper, the GUID
    generator) are the fields of [Externals]. *)

From Stdlib Require Import ZArith Ascii String Lia.
From stdpp Require Import base strings list gmap.

Set Warnings "-register-all".
Local Open Scope Z_scope.

(** ** JavaScript values and the string primitives the source calls *)

Module JS.

(** The values that travel through the two classes.  Strings are sequences
    of code units below 256; a number is carried by its canonical rendering,
    a function by an identity and its source text. *)
Inductive Value : Type :=
| VUndefined
| VNull
| VBool (b : bool)
| VNum (rendering : string)
| VStr (s : string)
| VFun (f : nat) (source : string)
| VObj (fields : list (string * Value))
| VArguments (items : list Value)
| VEntity (representation : Value)
| VStore (s : nat)
| VElement (e : nat)
| VParsed (html : string).

(** [typeof v] *)
Definition typeof (v : Value) : string :=
  match v with
  | VUndefined => "undefined"
  | VBool _ => "boolean"
  | VNum _ => "number"
  | VStr _ => "string"
  | VFun _ _ => "function"
  | VNull | VObj _ | VArguments _ | VEntity _
  | VStore _ | VElement _ | VParsed _ => "object"
  end.

(** ToBoolean, as used by [if (v)], [!v] and [v || w]. *)
Definition truthy (v : Value) : bool :=
  match v with
  | VUndefined | VNull => false
  | VBool b => b
  | VNum r => negb (String.eqb r "0" || String.eqb r "NaN")
  | VStr s => negb (String.eqb s "")
  | _ => true
  end.

(** ToString, as applied by [+] with a string operand.  Objects render by
    their class tag; the source only ever concatenates primitives, functions
    and one [arguments] object. *)
Definition ToString (v : Value) : string :=
  match v with
  | VUndefined => "undefined"
  | VNull => "null"
  | VBool true => "true"
  | VBool false => "false"
  | VNum r => r
  | VStr s => s
  | VFun _ src => src
  | VArguments _ => "[object Arguments]"
  | _ => "[object Object]"
  end.

(** [v instanceof NGN.DATA.Entity] *)
Definition instanceof_Entity (v : Value) : bool :=
  match v with VEntity _ => true | _ => false end.

(** [NGN.isFn(v)] *)
Definition isFn (v : Value) : bool :=
  match v with VFun _ _ => true | _ => false end.

(** [String.prototype.substr(start, length)] *)
Definition substr (s : string) (start len : Z) : string :=
  let size := Z.of_nat (String.length s) in
  let from := if start <? 0 then Z.max (size + start) 0 else start in
  let count := Z.min (Z.max len 0) (size - from) in
  if count <=? 0 then ""
  else String.substring (Z.to_nat from) (Z.to_nat count) s.

(** [Array.prototype.indexOf] on an array of strings: the position of the
    first element strictly equal to [x], or -1. *)
Fixpoint indexOf_from (i : Z) (l : list string) (x : string) : Z :=
  match l with
  | [] => -1
  | y :: l' => if String.eqb y x then i else indexOf_from (i + 1) l' x
  end.

Definition indexOf (l : list string) (x : string) : Z := indexOf_from 0 l x.

(** White space and line terminators among the code units below 256. *)
Definition is_space (c : ascii) : bool :=
  existsb (Nat.eqb (nat_of_ascii c)) [9; 10; 11; 12; 13; 32; 160]%nat.

Fixpoint trim_start (s : string) : string :=
  match s with
  | String c r => if is_space c then trim_start r else s
  | EmptyString => EmptyString
  end.

Fixpoint trim_end (s : string) : string :=
  match s with
  | EmptyString => EmptyString
  | String c r =>
      let r' := trim_end r in
      if is_space c && String.eqb r' "" then "" else String c r'
  end.

(** [String.prototype.trim] *)
Definition trim (s : string) : string := trim_end (trim_start s).

Definition lower (c : ascii) : ascii :=
  let n := nat_of_ascii c in
  if ((65 <=? n) && (n <=? 90))%nat
     || ((192 <=? n) && (n <=? 222) && negb (n =? 215))%nat
  then ascii_of_nat (n + 32) else c.

(** [String.prototype.toLowerCase] *)
Fixpoint toLowerCase (s : string) : string :=
  match s with
  | EmptyString => EmptyString
  | String c r => String (lower c) (toLowerCase r)
  end.

Definition is_alnum (c : ascii) : bool :=
  let n := nat_of_ascii c in
  (((48 <=? n) && (n <=? 57)) || ((65 <=? n) && (n <=? 90))
   || ((97 <=? n) && (n <=? 122)))%nat.

(** [s.replace(/[^A-Za-z0-9]/gi, '')] *)
Fixpoint strip_non_alnum (s : string) : string :=
  match s with
  | EmptyString => EmptyString
  | String c r =>
      if is_alnum c then String c (strip_non_alnum r) else strip_non_alnum r
  end.

(** Plain objects used as dictionaries: own enumerable string keys in
    insertion order.  [set] keeps the position of a key that is already
    there, as property assignment does. *)
Section Dict.
Context {V : Type}.

Fixpoint get (o : list (string * V)) (k : string) : option V :=
  match o with
  | [] => None
  | (k', v) :: o' => if String.eqb k' k then Some v else get o' k
  end.

Definition hasOwnProperty (o : list (string * V)) (k : string) : bool :=
  match get o k with Some _ => true | None => false end.

Fixpoint set (o : list (string * V)) (k : string) (v : V)
  : list (string * V) :=
  match o with
  | [] => [(k, v)]
  | (k', v') :: o' =>
      if String.eqb k' k then (k, v) :: o' else (k', v') :: set o' k v
  end.

Definition keys (o : list (string * V)) : list string := map fst o.
End Dict.

End JS.

(** ** The globals the facades run against *)

Module NGN.
Import JS.

(** The primitives of [NGN.BUS] that the two classes reach. *)
Inductive BusPrimitive : Type :=
| bus_on | bus_once | bus_emit | bus_off | bus_pool | bus_forward
| bus_delayEmit | bus_threshold | bus_thresholdOnce | bus_attach.

(** One call received by the bus: the primitive and its argument list. *)
Record BusCall : Type := mkCall {
  primitive : BusPrimitive;
  received : list Value
}.

(** The closures that [scopeStoreEvents] hands to [store.on].  Each keeps
    the variables it captured: [me.scope], [name], [sep] and [e] in the
    Driver, [me.scope] and [e] in the Controller.  Their bodies are
    [Driver.relay] and [Controller.relay] below. *)
Inductive Listener : Type :=
| DriverRelay (scope name sep e : string)
| ControllerRelay (scope e : string).

(** A node of the page: an element, or what the browser parsed out of an
    HTML string. *)
Inductive Node : Type :=
| Elem (e : nat)
| Parsed (html : string).

(** What surrounds an element of the page, in document order: the siblings
    before it, its children, the siblings after it. *)
Record Place : Type := mkPlace {
  preceding : list Node;
  children : list Node;
  following : list Node
}.

Inductive Level : Type := warn | error.

(** One [console.warn] or [console.error] call: the first argument and the
    remaining ones. *)
Record LogEntry : Type := mkLog {
  level : Level;
  message : string;
  details : list Value
}.

(** The answers of the collaborators whose code is outside the repository. *)
Record Externals : Type := mkExternals {
  (** [NGN.NET.template(source, data, cb)]: what [cb] receives, or [None]
      when the fetch never completes. *)
  NET_template : string -> Value -> option Value;
  (** [document.querySelector(selector)], [None] for [null]. *)
  querySelector : string -> option nat;
  (** [NGN.DOM.svg.update(element, cb)]: [None] when [NGN] has no [DOM]
      property; otherwise what [cb] receives, if it is called at all. *)
  DOM_svg_update : option (Value -> option Value);
  (** [NGN.DATA.util.GUID()] *)
  GUID : string;
  (** [NGN.css] *)
  css : string;
  (** what [NGN.BUS.attach(...)] returns *)
  attached : list Value -> Value
}.

(** The mutable globals.  [BUS] is [None] when [NGN.BUS] is missing, and
    otherwise the calls the bus has received, oldest first. *)
Record World : Type := mkWorld {
  externals : Externals;
  BUS : option (list BusCall);
  NGNX_REF : gmap string string;
  NGN_ref : gmap string string;
  listeners : gmap nat (list (string * Listener));
  document : gmap nat Place;
  requests : list (string * Value);
  queries : list string;
  invoked : list (Value * list Value);
  console : list LogEntry
}.

Definition set_BUS (b : option (list BusCall)) (w : World) : World :=
  mkWorld (externals w) b (NGNX_REF w) (NGN_ref w) (listeners w)
    (document w) (requests w) (queries w) (invoked w) (console w).

Definition set_NGNX_REF (r : gmap string string) (w : World) : World :=
  mkWorld (externals w) (BUS w) r (NGN_ref w) (listeners w)
    (document w) (requests w) (queries w) (invoked w) (console w).

Definition set_NGN_ref (r : gmap string string) (w : World) : World :=
  mkWorld (externals w) (BUS w) (NGNX_REF w) r (listeners w)
    (document w) (requests w) (queries w) (invoked w) (console w).

Definition set_listeners (l : gmap nat (list (string * Listener)))
  (w : World) : World :=
  mkWorld (externals w) (BUS w) (NGNX_REF w) (NGN_ref w) l
    (document w) (requests w) (queries w) (invoked w) (console w).

Definition set_document (d : gmap nat Place) (w : World) : World :=
  mkWorld (externals w) (BUS w) (NGNX_REF w) (NGN_ref w) (listeners w)
    d (requests w) (queries w) (invoked w) (console w).

Definition set_requests (r : list (string * Value)) (w : World) : World :=
  mkWorld (externals w) (BUS w) (NGNX_REF w) (NGN_ref w) (listeners w)
    (document w) r (queries w) (invoked w) (console w).

Definition set_queries (q : list string) (w : World) : World :=
  mkWorld (externals w) (BUS w) (NGNX_REF w) (NGN_ref w) (listeners w)
    (document w) (requests w) q (invoked w) (console w).

Definition set_invoked (i : list (Value * list Value)) (w : World) : World :=
  mkWorld (externals w) (BUS w) (NGNX_REF w) (NGN_ref w) (listeners w)
    (document w) (requests w) (queries w) i (console w).

Definition set_console (c : list LogEntry) (w : World) : World :=
  mkWorld (externals w) (BUS w) (NGNX_REF w) (NGN_ref w) (listeners w)
    (document w) (requests w) (queries w) (invoked w) c.

(** *** Computations: state over [World], with JavaScript exceptions *)

Inductive Thrown : Type :=
| Error (message : string)
| TypeError
| DOMException (name : string).

Inductive Outcome (A : Type) : Type :=
| Returned (a : A)
| Threw (t : Thrown).
Arguments Returned {A} a.
Arguments Threw {A} t.

Definition M (A : Type) : Type := World -> Outcome A * World.

#[global] Instance M_ret : MRet M := fun A a w => (Returned a, w).

#[global] Instance M_bind : MBind M := fun A B f m w =>
  match m w with
  | (Returned a, w') => f a w'
  | (Threw t, w') => (Threw t, w')
  end.

Definition throw {A : Type} (t : Thrown) : M A := fun w => (Threw t, w).

Definition world : M World := fun w => (Returned w, w).

Definition update (f : World -> World) : M unit :=
  fun w => (Returned tt, f w).

(** [l.forEach(f)] *)
Fixpoint forEach {A : Type} (l : list A) (f : A -> M unit) : M unit :=
  match l with
  | [] => mret tt
  | x :: l' => f x ;; forEach l' f
  end.

(** [NGN.coalesce(a, b)] on a possibly-null string and a default. *)
Definition coalesce (a : option string) (b : string) : string :=
  match a with Some s => s | None => b end.

(** [null + s]: a null scope concatenates as the text [null]. *)
Definition concat_null (a : option string) (s : string) : string :=
  match a with Some n => n +:+ s | None => "null" +:+ s end.

(** [console.warn(...)] and [console.error(...)] *)
Definition console_warn (msg : string) (rest : list Value) : M unit :=
  update (fun w => set_console (console w ++ [mkLog warn msg rest]) w).

Definition console_error (msg : string) (rest : list Value) : M unit :=
  update (fun w => set_console (console w ++ [mkLog error msg rest]) w).

(** Evaluating the callee [NGN.BUS.p] (or [NGN.BUS.p.apply]): a TypeError
    when [NGN.BUS] is missing.  JavaScript evaluates the callee before the
    arguments of the call. *)
Definition BUS_member : M unit := fun w =>
  match BUS w with
  | Some _ => (Returned tt, w)
  | None => (Threw TypeError, w)
  end.

(** The call itself, once callee and arguments are evaluated. *)
Definition BUS_receive (p : BusPrimitive) (args : list Value) : M unit :=
  fun w =>
    match BUS w with
    | Some calls => (Returned tt, set_BUS (Some (calls ++ [mkCall p args])) w)
    | None => (Threw TypeError, w)
    end.

(** [f.apply(thisArg, argArray)]: an undefined [argArray] is an empty list. *)
Definition apply_args (argArray : option (list Value)) : list Value :=
  match argArray with Some l => l | None => [] end.

(** [store.on(e, handler)] on the datastore [s]. *)
Definition store_on (s : nat) (e : string) (h : Listener) : M unit :=
  update (fun w =>
    set_listeners
      (<[s := default [] (listeners w !! s) ++ [(e, h)]]> (listeners w)) w).

(** The handlers of the datastore [s] for the event [e], oldest first. *)
Definition handlers (w : World) (s : nat) (e : string) : list Listener :=
  map snd (filter (fun p => fst p = e) (default [] (listeners w !! s))).

End NGN.

(** ** [src/driver.js]: class Driver *)

Module Driver.
Import JS NGN.

(** The values of the [once] configuration: a handler function, or a nested
    object of further handlers. *)
Inductive Handlers : Type :=
| Handler (f : nat) (source : string)
| Group (members : list (string * Handlers)).

(** The constructor's option bag.  A missing option is [None] (or
    [VUndefined]). *)
Record Config : Type := mkConfig {
  cfg_namespace : option string;
  cfg_references : option (list (string * string));
  cfg_ref : option (list (string * string));
  cfg_stores : option (list (string * nat));
  cfg_templates : option (gmap string string);
  cfg_on : Value;
  cfg_events : Value;
  cfg_pool : Value;
  cfg_once : option (list (string * Handlers));
  cfg_forward : option (list (string * Value));
  cfg_id : option string
}.

(** The properties the constructor defines on the instance.  [ref] maps a
    short reference name to the key of [NGNX.REF] its getter reads. *)
Record t : Type := mk {
  scope : option string;
  _references : list (string * string);
  ref : gmap string string;
  datastores : list (string * nat);
  templates : gmap string string;
  initialpool : Value;
  initialpoolonce : option (list (string * Handlers));
  initialforwarders : option (list (string * Value));
  id : string
}.

Definition set_ref (r : gmap string string) (d : t) : t :=
  mk (scope d) (_references d) r (datastores d) (templates d)
    (initialpool d) (initialpoolonce d) (initialforwarders d) (id d).

Definition set_datastores (s : list (string * nat)) (d : t) : t :=
  mk (scope d) (_references d) (ref d) s (templates d)
    (initialpool d) (initialpoolonce d) (initialforwarders d) (id d).


(** The [dataevents] property. *)
Definition dataevents : list string :=
  [ "record.create"; "record.delete"; "record.duplicate"; "record.update";
    "record.expired"; "record.restored"; "record.purged";
    "index.create"; "index.delete"; "filter.create"; "filter.remove" ].

(** The separators the relay closure recognises. *)
Definition separators : list string := [" "; "-"; "."; "_"; "+"; ":"].

Definition quote : string := String (ascii_of_nat 34) EmptyString.

Definition deprecation_notice : string :=
  "%cDEPRECATION NOTICE:%c " +:+ quote +:+ "template.render" +:+ quote
  +:+ " event is now " +:+ quote +:+ "template.rendered" +:+ quote.

(** [cfg.namespace || null] *)
Definition configured_scope (namespace : option string) : option string :=
  match namespace with
  | Some n => if truthy (VStr n) then Some n else None
  | None => None
  end.

(** [NGN.coalesce(a, b, c, null)] on values. *)
Fixpoint coalesce_values (l : list Value) : Value :=
  match l with
  | [] => VNull
  | VUndefined :: l' | VNull :: l' => coalesce_values l'
  | v :: _ => v
  end.

(** [createReference (name, selector)] *)
Definition createReference (d : t) (name selector : string) : M t :=
  if negb (truthy (VStr selector)) then
    throw (Error ("Invalid selector specified for new " +:+ name
                  +:+ " reference."))
  else
    let originalName := name in
    let name := id d +:+ "-" +:+ name in
    w ← world;
    match NGNX_REF w !! name with
    | None =>
        update (set_NGNX_REF (<[name := selector]> (NGNX_REF w))) ;;
        match ref d !! originalName with
        | None => mret (set_ref (<[originalName := name]> (ref d)) d)
        | Some _ => throw TypeError
        end
    | Some _ => mret d
    end.

(** [addReference ()]: [this.createReference.apply(this, arguments)] *)
Definition addReference (d : t) (name selector : string) : M t :=
  createReference d name selector.


(** [templateRendered (element)] *)
Definition templateRendered (d : t) (element : Value) : M unit :=
  BUS_receive bus_emit
    [VStr (concat_null (scope d) "template.rendered"); element] ;;
  BUS_receive bus_emit [VStr "template.rendered"; element] ;;
  BUS_receive bus_emit [VStr "template.render"; element].

(** [parent.insertAdjacentHTML(position, text)] and
    [parent.insertAdjacentElement(position, element)], for a parent that
    sits in the page. *)
Definition as_node (element : Value) : option Node :=
  match element with
  | VStr html => Some (Parsed html)
  | VElement e => Some (Elem e)
  | VParsed html => Some (Parsed html)
  | _ => None
  end.

Definition as_value (n : option Node) : Value :=
  match n with
  | Some (Elem e) => VElement e
  | Some (Parsed html) => VParsed html
  | None => VNull
  end.

Definition place_of (w : World) (p : nat) : Place :=
  default (mkPlace [] [] []) (document w !! p).

Definition insertAdjacent (parent : Value) (position : string)
  (element : Value) : M unit :=
  match parent, as_node element with
  | VElement p, Some n =>
      w ← world;
      let pl := place_of w p in
      let put pl' := update (set_document (<[p := pl']> (document w))) in
      let where_ := toLowerCase position in
      if String.eqb where_ "beforebegin" then
        put (mkPlace (preceding pl ++ [n]) (children pl) (following pl))
      else if String.eqb where_ "afterbegin" then
        put (mkPlace (preceding pl) (n :: children pl) (following pl))
      else if String.eqb where_ "beforeend" then
        put (mkPlace (preceding pl) (children pl ++ [n]) (following pl))
      else if String.eqb where_ "afterend" then
        put (mkPlace (preceding pl) (children pl) (n :: following pl))
      else throw (DOMException "SyntaxError")
  | _, _ => throw TypeError
  end.

(** [parent.previousSibling], [.nextSibling], [.firstChild], [.lastChild] *)
Definition sibling (pick : Place -> option Node) (parent : Value) : M Value :=
  match parent with
  | VElement p => w ← world; mret (as_value (pick (place_of w p)))
  | VUndefined | VNull => throw TypeError
  | _ => mret VUndefined
  end.

(** Calling a function supplied by the user of the class. *)
Definition call (f : Value) (args : list Value) : M unit :=
  update (fun w => set_invoked (invoked w ++ [(f, args)]) w).

(** [adjustedRender (parent, element, position, callback)] *)
Definition adjustedRender (d : t) (parent element : Value)
  (position : string) (callback : Value) : M unit :=
  let position :=
    if indexOf ["beforebegin"; "afterbegin"; "afterend"]
         (toLowerCase (trim position)) <? 0
    then "beforeend" else position in
  insertAdjacent parent position element ;;
  (if String.eqb position "beforeend" then templateRendered d element
   else if String.eqb position "beforebegin" then
     s ← sibling (fun pl => last (preceding pl)) parent; templateRendered d s
   else if String.eqb position "afterend" then
     s ← sibling (fun pl => head (following pl)) parent; templateRendered d s
   else if String.eqb position "afterbegin" then
     s ← sibling (fun pl => head (children pl)) parent; templateRendered d s
   else
     s ← sibling (fun pl => last (children pl)) parent; templateRendered d s) ;;
  w ← world;
  if isFn callback && negb (bool_decide (is_Some (DOM_svg_update (externals w))))
  then call callback []
  else mret tt.

(** [render (name, data, parent, position, callback)].  The continuation
    given to [NGN.NET.template] is the last statement of the method, so it
    is run where the call stands. *)
Definition render (d : t) (name : string) (data parent : Value)
  (position : option string) (callback : Value) : M unit :=
  match templates d !! name with
  | None =>
      throw (Error ("The Driver does not have a reference to a template called "
                    +:+ trim name +:+ "."))
  | Some source =>
      let data :=
        match data with VEntity representation => representation | _ => data end in
      if negb (String.eqb (typeof data) "object") then
        console_error "Invalid Data" [data] ;;
        throw (Error "The data provided to the renderer could not be processed because it is not a key/value object.")
      else if String.eqb (typeof parent) "function" then
        w ← world;
        update (set_requests (requests w ++ [(source, data)])) ;;
        match NET_template (externals w) source data with
        | Some element => call parent [element]
        | None => mret tt
        end
      else
        w ← world;
        resolved ←
          match parent with
          | VStr p =>
              update (set_queries (queries w ++ [p])) ;;
              match querySelector (externals w) p with
              | Some e => mret (Some (VElement e))
              | None =>
                  console_warn
                    ("%c" +:+ p +:+ "%c is not a valid selector or the referenced parent DOM element could not be found.")
                    [VStr (css (externals w)); VStr ""] ;;
                  mret None
              end
          | _ => mret (Some parent)
          end;
        match resolved with
        | None => mret tt
        | Some parent =>
            let position :=
              toLowerCase
                (match position with
                 | Some p => if truthy (VStr p) then p else "beforeend"
                 | None => "beforeend"
                 end) in
            w ← world;
            update (set_requests (requests w ++ [(source, data)])) ;;
            match NET_template (externals w) source data with
            | None => mret tt
            | Some element =>
                match DOM_svg_update (externals w) with
                | Some svg_update =>
                    match svg_update element with
                    | Some content =>
                        adjustedRender d parent content position callback
                    | None => mret tt
                    end
                | None => adjustedRender d parent element position callback
                end
            end
        end
  end.

(** The body of the closure that [scopeStoreEvents] attaches; [arguments]
    is what the datastore fires the handler with. *)
Definition relay_args (scope name sep e : string) (arguments : list Value)
  : list Value :=
  let args := arguments in
  if 0 <=? indexOf separators sep
  then VStr (scope +:+ name +:+ sep +:+ e) :: args
  else VStr (scope +:+ name +:+ e) :: args.

Definition relay (scope name sep e : string) (arguments : list Value)
  : M unit :=
  BUS_receive bus_emit (relay_args scope name sep e arguments).

(** [scopeStoreEvents (name, suppress)] *)
Definition scopeStoreEvents (d : t) (name : string) (suppress : option bool)
  : M unit :=
  let suppress := default false suppress in
  match scope d with
  | Some s =>
      let sep :=
        match scope d with
        | None => "NONE"
        | Some s => substr s (Z.of_nat (String.length s) - 1) 1
        end in
      forEach dataevents (fun e =>
        match get (datastores d) name with
        | Some store => store_on store e (DriverRelay s name sep e)
        | None => throw TypeError
        end)
  | None =>
      if negb suppress then
        console_warn
          "Driver.scopeStoreEvents called without a defined namespace." []
      else mret tt
  end.

(** [addStore (name, store)] *)
Definition addStore (d : t) (name : string) (store : nat) : M t :=
  (if hasOwnProperty (datastores d) name then
     match scope d with
     | Some s =>
         forEach dataevents (fun e => BUS_receive bus_off [VStr (s +:+ e)])
     | None => mret tt
     end ;;
     w ← world;
     console_warn
       ("Driver already had a reference to %c" +:+ name
        +:+ "%c, which has been overwritten.")
       [VStr (css (externals w)); VStr ""]
   else mret tt) ;;
  let d := set_datastores (set (datastores d) name store) d in
  scopeStoreEvents d name None ;;
  mret d.

(** [applyNamespace (args)].  Inside the method [arguments] is the method's
    own argument list, whose only element is [args]; a bare [return] yields
    [undefined], here [None]. *)
Definition applyNamespace (d : t) (args : list Value)
  : M (option (list Value)) :=
  let arguments := [VArguments args] in
  if Z.of_nat (length args) =? 0 then mret (Some arguments)
  else
    let args_0 := default VUndefined (args !! 0%nat) in
    if negb (String.eqb (typeof args_0) "string") then mret (Some arguments)
    else
      w ← world;
      match BUS w with
      | None =>
          console_warn
            ("%cNGNX.Driver.on('"
             +:+ ToString (default VUndefined (arguments !! 0%nat))
             +:+ "', ...)%c will not work because NGN.BUS is not available.")
            [VStr (css (externals w)); VStr ""] ;;
          mret None
      | Some _ =>
          mret (Some (<[0%nat :=
                          VStr (coalesce (scope d) "" +:+ ToString args_0)]>
                        args))
      end.

(** [pool (extra, data)] *)
Definition pool (d : t) (extra data : Value) : M unit :=
  let '(extra, data) :=
    if String.eqb (typeof extra) "object" then (VStr "", extra)
    else (extra, data) in
  let scope := trim (coalesce (scope d) "" +:+ ToString extra) in
  let scope := if 0 <? Z.of_nat (String.length scope)
               then VStr scope else VNull in
  BUS_receive bus_pool [scope; data].

(** [arguments[0] === 'template.render'] *)
Definition is_template_render (v : Value) : bool :=
  match v with VStr s => String.eqb s "template.render" | _ => false end.

Definition argument (arguments : list Value) (i : nat) : Value :=
  default VUndefined (arguments !! i).

(** [NGN.BUS.p.apply(NGN.BUS, this.applyNamespace(arguments))]: the callee
    is evaluated first, then the argument, then the call is made. *)
Definition namespaced (p : BusPrimitive) (d : t) (arguments : list Value)
  : M unit :=
  BUS_member ;;
  args ← applyNamespace d arguments;
  BUS_receive p (apply_args args).

(** [on ()] *)
Definition on (d : t) (arguments : list Value) : M unit :=
  if (0 <? Z.of_nat (length arguments))
     && String.eqb (typeof (argument arguments 0)) "object"
  then pool d (argument arguments 0) (argument arguments 1)
  else
    (if (0 <? Z.of_nat (length arguments))
        && is_template_render (argument arguments 0)
     then w ← world;
          console_warn deprecation_notice [VStr (css (externals w)); VStr ""]
     else mret tt) ;;
    namespaced bus_on d arguments.

(** [once ()] *)
Definition once (d : t) (arguments : list Value) : M unit :=
  if (0 <? Z.of_nat (length arguments))
     && String.eqb (typeof (argument arguments 0)) "object"
  then
    throw (Error "Nested/pooled events (object) are only supported for the on() method.")
  else
    (if (0 <? Z.of_nat (length arguments))
        && is_template_render (argument arguments 0)
     then w ← world;
          console_warn deprecation_notice [VStr (css (externals w)); VStr ""]
     else mret tt) ;;
    namespaced bus_once d arguments.

(** [emit ()], [forward ()], [delayEmit ()], [threshold ()],
    [thresholdOnce ()] *)
Definition emit (d : t) (arguments : list Value) : M unit :=
  namespaced bus_emit d arguments.

Definition forward (d : t) (arguments : list Value) : M unit :=
  namespaced bus_forward d arguments.

Definition delayEmit (d : t) (arguments : list Value) : M unit :=
  namespaced bus_delayEmit d arguments.

Definition threshold (d : t) (arguments : list Value) : M unit :=
  namespaced bus_threshold d arguments.

Definition thresholdOnce (d : t) (arguments : list Value) : M unit :=
  namespaced bus_thresholdOnce d arguments.

(** [attach ()]: returns what the bus returns. *)
Definition attach (d : t) (arguments : list Value) : M Value :=
  BUS_member ;;
  args ← applyNamespace d arguments;
  BUS_receive bus_attach (apply_args args) ;;
  w ← world;
  mret (attached (externals w) (apply_args args)).

(** [initializeOneOffEvent (eventName, handler, namespace)] *)
Fixpoint initializeOneOffEvent (d : t) (eventName : string)
  (handler : Handlers) (namespace : option string) : M unit :=
  let namespace := coalesce namespace "" in
  match handler with
  | Handler f source => once d [VStr (namespace +:+ eventName); VFun f source]
  | Group members =>
      (fix each (l : list (string * Handlers)) : M unit :=
         match l with
         | [] => mret tt
         | (name, h) :: l' =>
             initializeOneOffEvent d name h
               (Some (namespace +:+ eventName +:+ ".")) ;;
             each l'
         end) members
  end.

(** The constructor's loop over [Object.keys(this._references)]. *)
Fixpoint createReferences (d : t) (names : list string) : M t :=
  match names with
  | [] => mret d
  | r :: names' =>
      d' ← createReference d r (default "" (get (_references d) r));
      createReferences d' names'
  end.

(** [constructor (cfg)] *)
Definition constructor (cfg : Config) : M t :=
  w ← world;
  let this :=
    mk (configured_scope (cfg_namespace cfg))
       (match cfg_references cfg, cfg_ref cfg with
        | Some r, _ => r
        | None, Some r => r
        | None, None => []
        end)
       ∅
       (default [] (cfg_stores cfg))
       (default ∅ (cfg_templates cfg))
       (coalesce_values [cfg_on cfg; cfg_events cfg; cfg_pool cfg])
       (cfg_once cfg)
       (cfg_forward cfg)
       (strip_non_alnum
          (match cfg_id cfg, cfg_namespace cfg with
           | Some i, _ => i
           | None, Some n => n
           | None, None => GUID (externals w)
           end)) in
  this ← createReferences this (keys (_references this));
  (match scope this with
   | Some _ =>
       forEach (keys (datastores this)) (fun name =>
         scopeStoreEvents this name None)
   | None => mret tt
   end) ;;
  (if truthy (initialpool this) then pool this (initialpool this) VUndefined
   else mret tt) ;;
  (match initialpoolonce this with
   | Some handlers =>
       forEach (keys handlers) (fun eventName =>
         match get handlers eventName with
         | Some h => initializeOneOffEvent this eventName h None
         | None => throw TypeError
         end)
   | None => mret tt
   end) ;;
  (match initialforwarders this with
   | Some forwarders =>
       forEach (keys forwarders) (fun eventName =>
         forward this
           [VStr eventName; default VUndefined (get forwarders eventName)])
   | None => mret tt
   end) ;;
  mret this.

End Driver.

(** ** [src/controller.js]: class _Controller *)

Module Controller.
Import JS NGN.

Record Config : Type := mkConfig {
  cfg_scope : option string;
  cfg_references : option (list (string * string));
  cfg_stores : option (list (string * nat))
}.

Record t : Type := mk {
  scope : option string;
  references : list (string * string);
  datastores : list (string * nat);
  events : list string
}.

Definition set_datastores (s : list (string * nat)) (c : t) : t :=
  mk (scope c) (references c) s (events c).

(** [events] is the one writable property of the class. *)
Definition set_events (l : list string) (c : t) : t :=
  mk (scope c) (references c) (datastores c) l.

(** The [dataevents] property. *)
Definition dataevents : list string :=
  [ "record.create"; "record.delete"; "index.create"; "index.delete";
    "record.duplicate"; "record.update" ].

(** The body of the closure that [scopeStoreEvents] attaches: it takes one
    parameter, [model]. *)
Definition relay_args (scope e : string) (arguments : list Value)
  : list Value :=
  let model := default VUndefined (arguments !! 0%nat) in
  [VStr (scope +:+ e); model].

Definition relay (scope e : string) (arguments : list Value) : M unit :=
  BUS_receive bus_emit (relay_args scope e arguments).

(** [scopeStoreEvents (name, suppress)] *)
Definition scopeStoreEvents (c : t) (name : string) (suppress : option bool)
  : M unit :=
  let suppress := default false suppress in
  match scope c with
  | Some s =>
      forEach dataevents (fun e =>
        match get (datastores c) name with
        | Some store => store_on store e (ControllerRelay s e)
        | None => throw TypeError
        end)
  | None =>
      if negb suppress then
        console_warn
          "Controller.scopeStoreEvents called without a defined scope." []
      else mret tt
  end.

(** [addStore (name, store)] *)
Definition addStore (c : t) (name : string) (store : nat) : M t :=
  (if hasOwnProperty (datastores c) name then
     match scope c with
     | Some s =>
         forEach dataevents (fun e => BUS_receive bus_off [VStr (s +:+ e)])
     | None => mret tt
     end ;;
     console_warn
       ("Controller already had a reference to " +:+ name
        +:+ ", which has been overwritten.") []
   else mret tt) ;;
  let c := set_datastores (set (datastores c) name store) c in
  scopeStoreEvents c name None ;;
  mret c.

(** [on (topic, handler)] *)
Definition on (c : t) (topic : string) (handler : Value) : M unit :=
  w ← world;
  match BUS w with
  | None =>
      console_warn
        ("NGNX.Controller.on('" +:+ topic
         +:+ "', ...) will not work because NGN.BUS is not available.") []
  | Some _ =>
      if 0 <=? indexOf (events c) topic then
        BUS_receive bus_on [VStr topic; handler]
      else
        console_warn
          (topic +:+ " is not a supported event for this Controller.") []
  end.

(** [constructor (cfg)] *)
Definition constructor (cfg : Config) : M t :=
  let this :=
    mk (Driver.configured_scope (cfg_scope cfg))
       (default [] (cfg_references cfg))
       (default [] (cfg_stores cfg))
       [] in
  forEach (keys (references this)) (fun r =>
    w ← world;
    match NGN_ref w !! r with
    | None =>
        update (set_NGN_ref
                  (<[r := default "" (get (references this) r)]> (NGN_ref w)))
    | Some _ => mret tt
    end) ;;
  (match scope this with
   | Some _ =>
       forEach (keys (datastores this)) (fun name =>
         scopeStoreEvents this name None)
   | None => mret tt
   end) ;;
  mret this.

End Controller.

(** ** Datastores firing their events *)

Module Store.
Import JS NGN.

(** Calling one attached handler. *)
Definition invoke (h : Listener) (arguments : list Value) : M unit :=
  match h with
  | DriverRelay scope name sep e => Driver.relay scope name sep e arguments
  | ControllerRelay scope e => Controller.relay scope e arguments
  end.

(** The datastore [s] fires the event [e] with [payload]: every handler
    attached to [s] for [e] is called, oldest first. *)
Definition fire (s : nat) (e : string) (payload : list Value) : M unit :=
  w ← world;
  forEach (handlers w s e) (fun h => invoke h payload).

End Store.

(** ** Observations and sample configurations *)

Module Observe.
Import JS NGN.

(** Between [before] and [after] the bus received exactly one call, to the
    primitive [p], and the event name it was given is [name]. *)
Definition one_call (p : BusPrimitive) (name : string)
  (before after : World) : Prop :=
  exists calls rest,
    BUS before = Some calls
    /\ BUS after = Some (calls ++ [mkCall p (VStr name :: rest)]).

(** Between [before] and [after] the bus received [new], and nothing else. *)
Definition bus_received (new : list BusCall) (before after : World) : Prop :=
  exists calls, BUS before = Some calls /\ BUS after = Some (calls ++ new).

(** The names given to [emit] among the calls the bus has received. *)
Definition emitted_names (w : World) : list string :=
  flat_map (fun c =>
    match primitive c, received c with
    | bus_emit, VStr name :: _ => [name]
    | _, _ => []
    end) (default [] (BUS w)).

(** The call a relay hands to [NGN.BUS.emit] when it is fired with
    [payload]. *)
Definition relayed (payload : list Value) (h : Listener) : BusCall :=
  mkCall bus_emit
    match h with
    | DriverRelay scope name sep e => Driver.relay_args scope name sep e payload
    | ControllerRelay scope e => Controller.relay_args scope e payload
    end.

(** The handler functions of a [once] configuration entry, each with the
    dotted path that leads to it, in the order of the object's keys. *)
Fixpoint leaves (path : string) (h : Driver.Handlers)
  : list (string * Value) :=
  match h with
  | Driver.Handler f source => [(path, VFun f source)]
  | Driver.Group members =>
      (fix each (l : list (string * Driver.Handlers)) :=
         match l with
         | [] => []
         | (name, h') :: l' => leaves (path +:+ "." +:+ name) h' ++ each l'
         end) members
  end.

(** The computation leaves the handlers of every datastore as they are. *)
Definition keeps_listeners {A : Type} (m : M A) : Prop :=
  forall w, listeners (snd (m w)) = listeners w.

(** Whether the console holds a warning. *)
Definition warned (w : World) : bool :=
  existsb (fun l => match level l with warn => true | error => false end)
    (console w).

End Observe.

Module Samples.
Import JS NGN.

Definition collaborators : Externals :=
  mkExternals (fun _ _ => Some (VElement 7)) (fun _ => None) None
    "0b9f6c1e" "font-weight: bold;" (fun _ => VFun 0 "function () {}").

(** A page where the bus is up and nothing is registered yet. *)
Definition page : World :=
  mkWorld collaborators (Some []) ∅ ∅ ∅ ∅ [] [] [] [].

(** The same page before [NGN.BUS] exists. *)
Definition busless : World := set_BUS None page.

Definition handler : Value := VFun 1 "function (e) {}".

Definition created : Value := VObj [("id", VNum "1")].

(** [new NGNX.Driver({namespace: 'shop.', stores: {cart: store1},
    templates: {view: './views/cart.html'}})] *)
Definition shop_cfg : Driver.Config :=
  Driver.mkConfig (Some "shop.") None None (Some [("cart", 1%nat)])
    (Some {["view" := "./views/cart.html"]})
    VUndefined VUndefined VUndefined None None None.

Definition shop : Driver.t :=
  Driver.mk (Some "shop.") [] ∅ [("cart", 1%nat)]
    {["view" := "./views/cart.html"]} VNull None None "shop".

(** [new NGNX.Driver({templates: {view: './views/cart.html'}})] *)
Definition plain_cfg : Driver.Config :=
  Driver.mkConfig None None None None
    (Some {["view" := "./views/cart.html"]})
    VUndefined VUndefined VUndefined None None None.

Definition plain : Driver.t :=
  Driver.mk None [] ∅ [] {["view" := "./views/cart.html"]}
    VNull None None "0b9f6c1e".

(** [new NGNX.Controller({scope: 'shop.', stores: {cart: store1}})] *)
Definition desk_cfg : Controller.Config :=
  Controller.mkConfig (Some "shop.") None (Some [("cart", 1%nat)]).

Definition desk : Controller.t :=
  Controller.mk (Some "shop.") [] [("cart", 1%nat)] [].

(** A page whose template fetches never complete. *)
Definition stalled : World :=
  mkWorld (mkExternals (fun _ _ => None) (fun _ => None) None
             "0b9f6c1e" "font-weight: bold;" (fun _ => VUndefined))
    (Some []) ∅ ∅ ∅ ∅ [] [] [] [].

End Samples.

(** * Properties *)

Import JS NGN.

(** ** Strings and arrays *)

Lemma length_append (s t : string) :
  String.length (s +:+ t) = (String.length s + String.length t)%nat.
Proof. induction s as [|c s IH]; simpl; [reflexivity | now rewrite IH]. Qed.

Lemma substring_tail (s : string) (c : ascii) :
  String.substring (String.length s) 1 (s +:+ String c "") = String c "".
Proof. induction s as [|a s IH]; simpl; [reflexivity | exact IH]. Qed.

(** The one-character [substr] that [scopeStoreEvents] takes is the last
    character of a non-empty scope, and the empty string otherwise. *)
Lemma substr_last (s : string) (c : ascii) :
  let scope := s +:+ String c "" in
  substr scope (Z.of_nat (String.length scope) - 1) 1 = String c "".
Proof.
  cbv zeta. unfold substr. rewrite length_append. simpl String.length.
  replace (Z.of_nat (String.length s + 1) - 1) with (Z.of_nat (String.length s))
    by lia.
  destruct (Z.ltb_spec (Z.of_nat (String.length s)) 0) as [Hneg|_]; [lia|].
  replace (Z.min (Z.max 1 0) _) with 1 by lia.
  simpl. rewrite Nat2Z.id. apply substring_tail.
Qed.

Lemma substr_empty : substr "" (Z.of_nat (String.length "") - 1) 1 = "".
Proof. reflexivity. Qed.

Lemma indexOf_from_spec (l : list string) (x : string) (i : Z) :
  0 <= i -> (0 <=? indexOf_from i l x) = true <-> In x l.
Proof.
  revert i. induction l as [|y l IH]; intros i Hi; simpl.
  - split; [discriminate | contradiction].
  - destruct (String.eqb_spec y x) as [->|Hne].
    + split; [now left | intros _; apply Z.leb_le; exact Hi].
    + rewrite IH by lia. split; [now right | intros [Heq|Hin]; congruence].
Qed.

Lemma indexOf_spec (l : list string) (x : string) :
  (0 <=? indexOf l x) = true <-> In x l.
Proof. apply indexOf_from_spec. lia. Qed.

Lemma indexOf_absent (l : list string) (x : string) :
  ~ In x l -> (0 <=? indexOf l x) = false.
Proof.
  intros Hnot. destruct (0 <=? indexOf l x) eqn:Hix; [|reflexivity].
  apply indexOf_spec in Hix. contradiction.
Qed.

(** ** The monad *)

Lemma bind_returned {A B : Type} (m : M A) (f : A -> M B) (w : World) a w1 :
  m w = (Returned a, w1) -> (m ≫= f) w = f a w1.
Proof. intros H. unfold mbind, M_bind. now rewrite H. Qed.

Lemma bind_threw {A B : Type} (m : M A) (f : A -> M B) (w : World) t w1 :
  m w = (Threw t, w1) -> (m ≫= f) w = (Threw t, w1).
Proof. intros H. unfold mbind, M_bind. now rewrite H. Qed.

Lemma bind_inv {A B : Type} (m : M A) (f : A -> M B) (w w' : World) b :
  (m ≫= f) w = (Returned b, w') ->
  exists a w1, m w = (Returned a, w1) /\ f a w1 = (Returned b, w').
Proof.
  unfold mbind, M_bind. destruct (m w) as [[a|t] w1]; intros H.
  - now exists a, w1.
  - discriminate.
Qed.

Lemma forEach_ext {A : Type} (l : list A) (f g : A -> M unit) :
  (forall x w, In x l -> f x w = g x w) ->
  forall w, forEach l f w = forEach l g w.
Proof.
  induction l as [|x l IH]; intros Hfg w; simpl; [reflexivity|].
  unfold mbind, M_bind. rewrite Hfg by now left.
  destruct (g x w) as [[[]|t] w1]; [|reflexivity].
  apply IH. intros y w2 Hy. apply Hfg. now right.
Qed.

(** ** Datastore listeners *)

(** Attaching one handler per event kind appends them, in order, to the
    handlers of the store and touches nothing else. *)
Lemma forEach_store_on (evs : list string) (h : string -> Listener)
  (st : nat) (w : World) :
  evs <> [] ->
  forEach evs (fun e => store_on st e (h e)) w
  = (Returned tt,
     set_listeners
       (<[st := default [] (listeners w !! st) ++ map (fun e => (e, h e)) evs]>
          (listeners w)) w).
Proof.
  revert w. induction evs as [|e evs IH]; intros w Hne; [congruence|].
  destruct evs as [|e' evs].
  - reflexivity.
  - change (forEach (e :: e' :: evs) (fun e0 => store_on st e0 (h e0)) w)
      with ((store_on st e (h e) ;;
             forEach (e' :: evs) (fun e0 => store_on st e0 (h e0))) w).
    erewrite bind_returned by reflexivity.
    rewrite IH by discriminate.
    destruct w as [ex b r1 r2 ls doc rq qs iv cs]. unfold set_listeners. simpl.
    rewrite lookup_insert_eq, insert_insert_eq. simpl.
    now rewrite <- app_assoc.
Qed.

Lemma handlers_of_fresh (evs : list string) (h : string -> Listener)
  (K : string) :
  NoDup evs -> In K evs ->
  map snd (filter (fun p => fst p = K) (map (fun e => (e, h e)) evs)) = [h K].
Proof.
  induction 1 as [|e evs Hnotin Hnd IH]; intros Hin; [contradiction|].
  simpl. destruct Hin as [->|Hin].
  - rewrite filter_cons_True by reflexivity. simpl. f_equal.
    clear IH Hnd. induction evs as [|e evs IH]; [reflexivity|].
    simpl. rewrite filter_cons_False.
    + apply IH. intros Hin. apply Hnotin. now right.
    + simpl. intros ->. apply Hnotin. now left.
  - rewrite filter_cons_False; [now apply IH|].
    simpl. intros ->. apply Hnotin. now apply list_elem_of_In.
Qed.

Lemma dataevents_NoDup : NoDup Driver.dataevents.
Proof. apply (bool_decide_unpack _). vm_compute. reflexivity. Qed.

(** What [Driver.scopeStoreEvents] leaves behind for a driver that has a
    scope and a store under [S]. *)
Lemma scopeStoreEvents_attaches (d : Driver.t) (N S : string) (st : nat)
  (suppress : option bool) (w : World) :
  Driver.scope d = Some N ->
  get (Driver.datastores d) S = Some st ->
  Driver.scopeStoreEvents d S suppress w
  = (Returned tt,
     set_listeners
       (<[st := default [] (listeners w !! st)
                ++ map (fun e =>
                          (e, DriverRelay N S
                                (substr N (Z.of_nat (String.length N) - 1) 1) e))
                     Driver.dataevents]> (listeners w)) w).
Proof.
  intros Hscope Hstore. unfold Driver.scopeStoreEvents. rewrite Hscope.
  rewrite <- (forEach_store_on Driver.dataevents _ st w) by discriminate.
  apply forEach_ext. intros e w' _. now rewrite Hstore.
Qed.

Lemma set_BUS_same (w : World) : set_BUS (BUS w) w = w.
Proof. now destruct w. Qed.

Lemma forEach_BUS_receive {A : Type} (l : list A) (p : BusPrimitive)
  (f : A -> list Value) (w : World) (calls : list BusCall) :
  BUS w = Some calls ->
  forEach l (fun x => BUS_receive p (f x)) w
  = (Returned tt,
     set_BUS (Some (calls ++ map (fun x => mkCall p (f x)) l)) w).
Proof.
  revert w calls. induction l as [|x l IH]; intros w calls Hbus; simpl.
  - now rewrite app_nil_r, <- Hbus, set_BUS_same.
  - unfold mbind, M_bind. unfold BUS_receive at 1. rewrite Hbus.
    rewrite (IH _ (calls ++ [mkCall p (f x)])) by now destruct w.
    destruct w; simpl. now rewrite <- app_assoc.
Qed.

(** Firing an event calls [emit] once per attached handler, in order. *)
Lemma fire_relays (st : nat) (K : string) (payload : list Value) (w : World)
  (calls : list BusCall) :
  BUS w = Some calls ->
  Store.fire st K payload w
  = (Returned tt,
     set_BUS
       (Some (calls ++ map (Observe.relayed payload) (handlers w st K))) w).
Proof.
  intros Hbus. unfold Store.fire. erewrite bind_returned by reflexivity.
  rewrite (forEach_ext _ _
             (fun h => BUS_receive bus_emit
                         (received (Observe.relayed payload h)))).
  - now rewrite (forEach_BUS_receive _ _ _ _ _ Hbus).
  - intros [scope name sep e|scope e] w' _; reflexivity.
Qed.

Lemma separator_recognised (c : ascii) :
  In c [" "; "-"; "."; "_"; "+"; ":"]%char <->
  In (String c "") Driver.separators.
Proof.
  unfold Driver.separators. simpl. split.
  - intros H. repeat (destruct H as [<-|H]; [tauto|]). contradiction.
  - intros H.
    repeat (destruct H as [H|H]; [injection H as <-; tauto|]). contradiction.
Qed.

(** After [scopeStoreEvents], the handlers of the store for an event kind
    are the earlier ones followed by the new relay. *)
Lemma handlers_after_scopeStoreEvents (w : World) (st : nat) (K : string)
  (h : string -> Listener) (evs : list string) :
  NoDup evs -> In K evs ->
  handlers
    (set_listeners
       (<[st := default [] (listeners w !! st)
                ++ map (fun e => (e, h e)) evs]> (listeners w)) w) st K
  = handlers w st K ++ [h K].
Proof.
  intros Hnd HK. unfold handlers. destruct w; simpl.
  rewrite lookup_insert_eq. simpl.
  rewrite filter_app, map_app. f_equal.
  now apply handlers_of_fresh.
Qed.

(** C4.  The name under which a store event is relayed is
    namespace + store name + separator + event kind, the separator being the
    last character of the namespace when that character is a space, [-],
    [.], [_], [+] or [:]; for any other last character the name is
    namespace + store name + event kind.  The relay runs after the handlers
    the store already had. *)
Theorem relay_name_follows_last_character (d : Driver.t) (N S K : string)
  (st : nat) (payload : list Value) (w : World) (calls : list BusCall) :
  Driver.scope d = Some N ->
  get (Driver.datastores d) S = Some st ->
  In K Driver.dataevents ->
  BUS w = Some calls ->
  let w1 := snd (Driver.scopeStoreEvents d S None w) in
  let emitted name :=
    (Returned tt,
     set_BUS
       (Some (calls ++ map (Observe.relayed payload) (handlers w st K)
              ++ [mkCall bus_emit (VStr name :: payload)])) w1) in
  (forall N' c, N = N' +:+ String c "" ->
     In c [" "; "-"; "."; "_"; "+"; ":"]%char ->
     Store.fire st K payload w1 = emitted (N +:+ S +:+ String c "" +:+ K))
  /\
  (forall N' c, N = N' +:+ String c "" ->
     ~ In c [" "; "-"; "."; "_"; "+"; ":"]%char ->
     Store.fire st K payload w1 = emitted (N +:+ S +:+ K)).
Proof.
  intros Hscope Hstore HK Hbus w1 emitted.
  assert (Hfire : forall N' c, N = N' +:+ String c "" ->
            Store.fire st K payload w1
            = emitted (if 0 <=? indexOf Driver.separators (String c "")
                       then N +:+ S +:+ String c "" +:+ K
                       else N +:+ S +:+ K)).
  { intros N' c HN. subst w1 emitted.
    rewrite (scopeStoreEvents_attaches d N S st None w Hscope Hstore).
    cbn [snd].
    assert (Hsep : substr N (Z.of_nat (String.length N) - 1) 1 = String c "").
    { rewrite HN. apply substr_last. }
    rewrite Hsep.
    rewrite (fire_relays st K payload _ calls) by exact Hbus.
    rewrite (handlers_after_scopeStoreEvents w st K
               (fun e => DriverRelay N S (String c "") e) Driver.dataevents
               dataevents_NoDup HK).
    rewrite map_app. cbn [map]. unfold Observe.relayed at 2.
    unfold Driver.relay_args.
    now destruct (0 <=? indexOf Driver.separators (String c "")). }
  split; intros N' c HN Hc; rewrite (Hfire N' c HN).
  - apply separator_recognised, indexOf_spec in Hc. now rewrite Hc.
  - rewrite indexOf_absent; [reflexivity|].
    intros Hin. apply Hc. now apply separator_recognised.
Qed.

Lemma relay_name_follows_last_character_witness :
  let w1 :=
    snd (Driver.scopeStoreEvents Samples.shop "cart" None Samples.page) in
  Store.fire 1 "record.create" [Samples.created] w1
  = (Returned tt,
     set_BUS
       (Some ([] ++ map (Observe.relayed [Samples.created])
                      (handlers Samples.page 1 "record.create")
              ++ [mkCall bus_emit
                    [VStr ("shop." +:+ "cart" +:+ String "." ""
                           +:+ "record.create");
                     Samples.created]])) w1).
Proof.
  exact (proj1 (relay_name_follows_last_character Samples.shop "shop." "cart"
                  "record.create" 1%nat [Samples.created] Samples.page []
                  eq_refl eq_refl (or_introl eq_refl) eq_refl)
           "shop" "."%char eq_refl
           (or_intror (or_intror (or_introl eq_refl)))).
Defined.

(** ** The constructor *)

Ltac bind_inv_in H :=
  repeat (let a := fresh "a" in let w := fresh "w" in let Ha := fresh "Ha" in
          apply bind_inv in H as (a & w & Ha & H)).

Lemma createReference_keeps (d d' : Driver.t) (name selector : string)
  (w w' : World) :
  Driver.createReference d name selector w = (Returned d', w') ->
  exists r, d' = Driver.set_ref r d.
Proof.
  unfold Driver.createReference.
  destruct (negb (truthy (VStr selector))); [discriminate|].
  intros H. apply bind_inv in H as (w1 & w2 & Hw & H).
  destruct (NGNX_REF w1 !! _).
  - injection H as <- _. exists (Driver.ref d). now destruct d.
  - apply bind_inv in H as ([] & w3 & _ & H).
    destruct (Driver.ref d !! name); [discriminate|].
    injection H as <- _. eauto.
Qed.

Lemma createReferences_keeps (names : list string) (d d' : Driver.t)
  (w w' : World) :
  Driver.createReferences d names w = (Returned d', w') ->
  exists r, d' = Driver.set_ref r d.
Proof.
  revert d w. induction names as [|n names IH]; intros d w H; simpl in H.
  - injection H as <- _. exists (Driver.ref d). now destruct d.
  - apply bind_inv in H as (d1 & w1 & H1 & H).
    apply createReference_keeps in H1 as [r1 ->].
    apply IH in H as [r ->]. now exists r.
Qed.

(** The properties of a constructed driver that later methods read. *)
Lemma constructor_fields (cfg : Driver.Config) (w w' : World) (d : Driver.t) :
  Driver.constructor cfg w = (Returned d, w') ->
  Driver.scope d = Driver.configured_scope (Driver.cfg_namespace cfg)
  /\ Driver.templates d = default ∅ (Driver.cfg_templates cfg)
  /\ Driver.datastores d = default [] (Driver.cfg_stores cfg).
Proof.
  unfold Driver.constructor. intros H.
  apply bind_inv in H as (w1 & w2 & _ & H).
  apply bind_inv in H as (this & w3 & Hrefs & H).
  apply createReferences_keeps in Hrefs as [r ->].
  bind_inv_in H. injection H as <- _. now simpl.
Qed.

Lemma configured_scope_prefix (ns : option string) (E : string) :
  coalesce (Driver.configured_scope ns) "" +:+ E
  = match ns with Some N => N +:+ E | None => E end.
Proof.
  destruct ns as [N|]; [|reflexivity]. simpl.
  destruct (String.eqb_spec N "") as [->|_]; reflexivity.
Qed.

(** ** Namespacing *)

(** With a bus and a string first argument, a namespaced call reaches its
    primitive once, the scope prepended to the first argument. *)
Lemma namespaced_string (p : BusPrimitive) (d : Driver.t) (E : string)
  (rest : list Value) (w : World) (calls : list BusCall) :
  BUS w = Some calls ->
  Driver.namespaced p d (VStr E :: rest) w
  = (Returned tt,
     set_BUS
       (Some (calls ++
                [mkCall p (VStr (coalesce (Driver.scope d) "" +:+ E) :: rest)]))
       w).
Proof.
  intros Hbus. unfold Driver.namespaced, Driver.applyNamespace, BUS_member,
    BUS_receive, world, mbind, M_bind, mret, M_ret. simpl.
  now rewrite !Hbus.
Qed.

Lemma console_warn_run (msg : string) (rest : list Value) (w : World) :
  console_warn msg rest w
  = (Returned tt, set_console (console w ++ [mkLog warn msg rest]) w).
Proof. reflexivity. Qed.

(** [on] and [once] with a string first argument: one call to the
    primitive; the deprecation notice touches the console only. *)
Lemma on_string (d : Driver.t) (E : string) (rest : list Value) (w : World)
  (calls : list BusCall) :
  BUS w = Some calls ->
  fst (Driver.on d (VStr E :: rest) w) = Returned tt
  /\ BUS (snd (Driver.on d (VStr E :: rest) w))
     = Some (calls ++
               [mkCall bus_on
                  (VStr (coalesce (Driver.scope d) "" +:+ E) :: rest)]).
Proof.
  intros Hbus. unfold Driver.on. simpl.
  destruct (String.eqb E "template.render").
  - erewrite bind_returned by reflexivity.
    erewrite namespaced_string by (simpl; exact Hbus). now simpl.
  - erewrite bind_returned by reflexivity.
    erewrite namespaced_string by exact Hbus. now simpl.
Qed.

Lemma once_string (d : Driver.t) (E : string) (rest : list Value) (w : World)
  (calls : list BusCall) :
  BUS w = Some calls ->
  fst (Driver.once d (VStr E :: rest) w) = Returned tt
  /\ BUS (snd (Driver.once d (VStr E :: rest) w))
     = Some (calls ++
               [mkCall bus_once
                  (VStr (coalesce (Driver.scope d) "" +:+ E) :: rest)]).
Proof.
  intros Hbus. unfold Driver.once. simpl.
  destruct (String.eqb E "template.render").
  - erewrite bind_returned by reflexivity.
    erewrite namespaced_string by (simpl; exact Hbus). now simpl.
  - erewrite bind_returned by reflexivity.
    erewrite namespaced_string by exact Hbus. now simpl.
Qed.

(** [Controller.on] with a bus: the topic goes to the bus as it is when it
    is listed in [events], and nowhere otherwise. *)
Lemma controller_on_listed (c : Controller.t) (E : string) (h : Value)
  (w : World) (calls : list BusCall) :
  BUS w = Some calls -> In E (Controller.events c) ->
  Controller.on c E h w
  = (Returned tt, set_BUS (Some (calls ++ [mkCall bus_on [VStr E; h]])) w).
Proof.
  intros Hbus Hin. unfold Controller.on.
  erewrite bind_returned by reflexivity. rewrite Hbus.
  apply indexOf_spec in Hin. rewrite Hin. unfold BUS_receive. now rewrite Hbus.
Qed.

Lemma controller_on_unlisted (c : Controller.t) (E : string) (h : Value)
  (w : World) (calls : list BusCall) :
  BUS w = Some calls -> ~ In E (Controller.events c) ->
  Controller.on c E h w
  = (Returned tt,
     set_console
       (console w ++
          [mkLog warn (E +:+ " is not a supported event for this Controller.")
             []]) w).
Proof.
  intros Hbus Hnot. unfold Controller.on.
  erewrite bind_returned by reflexivity. rewrite Hbus.
  now rewrite indexOf_absent.
Qed.

(** C1, on the Controller.  A controller built with the scope [shop.] does
    not subscribe to [shop.click] when [on('click', handler)] is called: as
    constructed it makes no bus call at all, and once [click] is listed in
    its [events] it subscribes to [click] as it is. *)
Lemma controller_on_leaves_scope_out :
  Controller.constructor Samples.desk_cfg Samples.page
  = (Returned Samples.desk,
     snd (Controller.constructor Samples.desk_cfg Samples.page))
  /\ BUS (snd (Controller.on Samples.desk "click" Samples.handler Samples.page))
     = Some []
  /\ BUS (snd (Controller.on (Controller.set_events ["click"] Samples.desk)
                 "click" Samples.handler Samples.page))
     = Some [mkCall bus_on [VStr "click"; Samples.handler]]
  /\ ~ Observe.one_call bus_on ("shop." +:+ "click") Samples.page
         (snd (Controller.on Samples.desk "click" Samples.handler Samples.page))
  /\ ~ Observe.one_call bus_on ("shop." +:+ "click") Samples.page
         (snd (Controller.on (Controller.set_events ["click"] Samples.desk)
                 "click" Samples.handler Samples.page)).
Proof.
  split; [reflexivity|]. split; [reflexivity|]. split; [reflexivity|].
  split; intros (calls & rest & Hbefore & Hafter);
    injection Hbefore as <-; vm_compute in Hafter; discriminate.
Qed.

(** C1, as the code has it.  A Driver constructed with the namespace N
    (or with none) turns [emit], [on] and [once] of the event name E, while
    the bus is there, into exactly one call of the matching bus primitive
    named N+E (E when no namespace was configured), the other arguments as
    given.  [Controller.on] never prepends the scope: E reaches the bus as
    it is when the controller lists it in [events], and otherwise the bus is
    not called and a warning is logged. *)
Theorem driver_prepends_namespace (cfg : Driver.Config) (w0 w1 : World)
  (d : Driver.t) (E : string) (rest : list Value) (w : World)
  (calls : list BusCall) :
  Driver.constructor cfg w0 = (Returned d, w1) ->
  BUS w = Some calls ->
  let name :=
    match Driver.cfg_namespace cfg with Some N => N +:+ E | None => E end in
  let once_to p (r : Outcome unit * World) :=
    fst r = Returned tt
    /\ BUS (snd r) = Some (calls ++ [mkCall p (VStr name :: rest)]) in
  once_to bus_emit (Driver.emit d (VStr E :: rest) w)
  /\ once_to bus_on (Driver.on d (VStr E :: rest) w)
  /\ once_to bus_once (Driver.once d (VStr E :: rest) w)
  /\ forall (c : Controller.t) (h : Value),
       (In E (Controller.events c) ->
        Controller.on c E h w
        = (Returned tt,
           set_BUS (Some (calls ++ [mkCall bus_on [VStr E; h]])) w))
       /\ (~ In E (Controller.events c) ->
           Controller.on c E h w
           = (Returned tt,
              set_console
                (console w ++
                   [mkLog warn
                      (E +:+ " is not a supported event for this Controller.")
                      []]) w)).
Proof.
  intros Hnew Hbus name once_to.
  apply constructor_fields in Hnew as (Hscope & _ & _).
  assert (Hname : coalesce (Driver.scope d) "" +:+ E = name).
  { rewrite Hscope. apply configured_scope_prefix. }
  subst once_to. cbv beta. rewrite <- Hname.
  split; [|split; [|split]].
  - unfold Driver.emit. now rewrite (namespaced_string _ _ _ _ _ _ Hbus).
  - now apply on_string.
  - now apply once_string.
  - intros c h. split; intros Hin.
    + now apply controller_on_listed.
    + now apply controller_on_unlisted with (calls := calls).
Qed.

Lemma driver_prepends_namespace_witness :
  let r := Driver.emit Samples.shop [VStr "paid"; Samples.created] Samples.page
  in fst r = Returned tt
     /\ BUS (snd r)
        = Some ([] ++ [mkCall bus_emit
                         [VStr ("shop." +:+ "paid"); Samples.created]]).
Proof.
  exact (proj1 (driver_prepends_namespace Samples.shop_cfg Samples.page
                  (snd (Driver.constructor Samples.shop_cfg Samples.page))
                  Samples.shop "paid" [Samples.created] Samples.page []
                  eq_refl eq_refl)).
Defined.

(** ** Relaying store events *)

Lemma get_set {V : Type} (o : list (string * V)) (k : string) (v : V) :
  get (set o k v) k = Some v.
Proof.
  induction o as [|[k' v'] o IH]; simpl.
  - now rewrite String.eqb_refl.
  - destruct (String.eqb_spec k' k) as [->|Hne]; simpl.
    + now rewrite String.eqb_refl.
    + destruct (String.eqb_spec k' k); [contradiction | exact IH].
Qed.

Lemma handlers_after_attach (w : World) (st : nat) (K : string)
  (h : string -> Listener) (evs : list string) :
  In K evs ->
  In (h K)
    (handlers
       (set_listeners
          (<[st := default [] (listeners w !! st)
                   ++ map (fun e => (e, h e)) evs]> (listeners w)) w) st K).
Proof.
  intros HK. unfold handlers. destruct w; simpl. rewrite lookup_insert_eq.
  simpl. apply in_map_iff. exists (K, h K). split; [reflexivity|].
  apply list_elem_of_In, list_elem_of_filter. split; [reflexivity|].
  apply elem_of_app. right. apply list_elem_of_In, in_map_iff. now exists K.
Qed.

(** [Driver.addStore] while the bus is there: it returns, and the new store
    carries one relay per event kind. *)
Lemma driver_addStore_attaches (d : Driver.t) (N S : string) (st : nat)
  (w : World) (calls : list BusCall) :
  Driver.scope d = Some N -> BUS w = Some calls ->
  exists w',
    BUS w' = Some (calls ++
                     if hasOwnProperty (Driver.datastores d) S
                     then map (fun e => mkCall bus_off [VStr (N +:+ e)])
                            Driver.dataevents
                     else [])
    /\ listeners w' = listeners w
    /\ Driver.addStore d S st w
       = (Returned (Driver.set_datastores (set (Driver.datastores d) S st) d),
          set_listeners
            (<[st := default [] (listeners w' !! st)
                     ++ map (fun e =>
                               (e, DriverRelay N S
                                     (substr N (Z.of_nat (String.length N) - 1) 1)
                                     e))
                          Driver.dataevents]> (listeners w')) w').
Proof.
  intros Hscope Hbus. unfold Driver.addStore.
  destruct (hasOwnProperty (Driver.datastores d) S).
  - rewrite Hscope.
    eexists. split; [|split]; cycle 2.
    + erewrite bind_returned; cycle 1.
      { erewrite bind_returned
          by (apply (forEach_BUS_receive _ _ (fun e => [VStr (N +:+ e)]) _ _ Hbus)).
        erewrite bind_returned by reflexivity. reflexivity. }
      erewrite bind_returned; cycle 1.
      { apply scopeStoreEvents_attaches; [exact Hscope | apply get_set]. }
      reflexivity.
    + reflexivity.
    + reflexivity.
  - exists w. rewrite app_nil_r. split; [exact Hbus|]. split; [reflexivity|].
    erewrite bind_returned by reflexivity.
    erewrite bind_returned; cycle 1.
    { apply scopeStoreEvents_attaches; [exact Hscope | apply get_set]. }
    reflexivity.
Qed.

Lemma controller_scopeStoreEvents_attaches (c : Controller.t) (N S : string)
  (st : nat) (suppress : option bool) (w : World) :
  Controller.scope c = Some N ->
  get (Controller.datastores c) S = Some st ->
  Controller.scopeStoreEvents c S suppress w
  = (Returned tt,
     set_listeners
       (<[st := default [] (listeners w !! st)
                ++ map (fun e => (e, ControllerRelay N e))
                     Controller.dataevents]> (listeners w)) w).
Proof.
  intros Hscope Hstore. unfold Controller.scopeStoreEvents. rewrite Hscope.
  rewrite <- (forEach_store_on Controller.dataevents _ st w) by discriminate.
  apply forEach_ext. intros e w' _. now rewrite Hstore.
Qed.

Lemma controller_addStore_attaches (c : Controller.t) (N S : string)
  (st : nat) (w : World) (calls : list BusCall) :
  Controller.scope c = Some N -> BUS w = Some calls ->
  exists w',
    BUS w' = Some (calls ++
                     if hasOwnProperty (Controller.datastores c) S
                     then map (fun e => mkCall bus_off [VStr (N +:+ e)])
                            Controller.dataevents
                     else [])
    /\ listeners w' = listeners w
    /\ Controller.addStore c S st w
       = (Returned
            (Controller.set_datastores (set (Controller.datastores c) S st) c),
          set_listeners
            (<[st := default [] (listeners w' !! st)
                     ++ map (fun e => (e, ControllerRelay N e))
                          Controller.dataevents]> (listeners w')) w').
Proof.
  intros Hscope Hbus. unfold Controller.addStore.
  destruct (hasOwnProperty (Controller.datastores c) S).
  - rewrite Hscope.
    eexists. split; [|split]; cycle 2.
    + erewrite bind_returned; cycle 1.
      { erewrite bind_returned
          by (apply (forEach_BUS_receive _ _ (fun e => [VStr (N +:+ e)]) _ _ Hbus)).
        reflexivity. }
      erewrite bind_returned; cycle 1.
      { apply controller_scopeStoreEvents_attaches;
          [exact Hscope | apply get_set]. }
      reflexivity.
    + reflexivity.
    + reflexivity.
  - exists w. rewrite app_nil_r. split; [exact Hbus|]. split; [reflexivity|].
    erewrite bind_returned by reflexivity.
    erewrite bind_returned; cycle 1.
    { apply controller_scopeStoreEvents_attaches;
        [exact Hscope | apply get_set]. }
    reflexivity.
Qed.

Lemma BUS_set_listeners (l : gmap nat (list (string * Listener))) (w : World) :
  BUS (set_listeners l w) = BUS w.
Proof. reflexivity. Qed.

(** C2, on the Controller.  With the scope [shop.] and the store [cart],
    firing [record.create] makes the Controller emit [shop.record.create]
    and nothing named [shop.cart.record.create]: the store-qualified event
    is not part of this class. *)
Lemma controller_relays_unqualified_only :
  let w1 := snd (Controller.constructor Samples.desk_cfg Samples.page) in
  let w2 := snd (Store.fire 1 "record.create" [Samples.created] w1) in
  Controller.constructor Samples.desk_cfg Samples.page
  = (Returned Samples.desk, w1)
  /\ Observe.emitted_names w2 = ["shop." +:+ "record.create"]
  /\ ~ In ("shop." +:+ "cart" +:+ "." +:+ "record.create")
         (Observe.emitted_names w2).
Proof.
  split; [reflexivity|]. split; [reflexivity|].
  vm_compute. intros [H|[]]. discriminate.
Qed.

(** C2, as the code has it.  Let the namespace N end in a recognised
    separator C and let the bus be there.  Registering a store under S in a
    Driver and firing one of the Driver's event kinds K on it makes the bus
    receive an emission named N+S+C+K with the payload of the store event;
    doing the same with a Controller and one of its event kinds makes the
    bus receive an emission named N+K with the first payload argument. *)
Theorem store_events_are_relayed (N' : string) (c : ascii) (S K : string)
  (st : nat) (payload : list Value) (w : World) (calls : list BusCall) :
  let N := N' +:+ String c "" in
  In c [" "; "-"; "."; "_"; "+"; ":"]%char ->
  BUS w = Some calls ->
  (forall d : Driver.t,
     Driver.scope d = Some N -> In K Driver.dataevents ->
     exists d1 w1 calls1 new,
       Driver.addStore d S st w = (Returned d1, w1)
       /\ get (Driver.datastores d1) S = Some st
       /\ BUS w1 = Some calls1
       /\ Store.fire st K payload w1
          = (Returned tt, set_BUS (Some (calls1 ++ new)) w1)
       /\ In (mkCall bus_emit
                (VStr (N +:+ S +:+ String c "" +:+ K) :: payload)) new)
  /\
  (forall ctl : Controller.t,
     Controller.scope ctl = Some N -> In K Controller.dataevents ->
     exists c1 w1 calls1 new,
       Controller.addStore ctl S st w = (Returned c1, w1)
       /\ get (Controller.datastores c1) S = Some st
       /\ BUS w1 = Some calls1
       /\ Store.fire st K payload w1
          = (Returned tt, set_BUS (Some (calls1 ++ new)) w1)
       /\ In (mkCall bus_emit
                [VStr (N +:+ K); default VUndefined (payload !! 0%nat)]) new).
Proof.
  intros N Hc Hbus. split.
  - intros d Hscope HK.
    destruct (driver_addStore_attaches d N S st w calls Hscope Hbus)
      as (w' & Hbus' & _ & Hadd).
    eexists _, _, _, _. split; [exact Hadd|].
    split; [apply get_set|].
    split; [rewrite BUS_set_listeners; exact Hbus'|].
    split; [apply fire_relays; rewrite BUS_set_listeners; exact Hbus'|].
    apply in_map_iff.
    exists (DriverRelay N S (substr N (Z.of_nat (String.length N) - 1) 1) K).
    split.
    + unfold Observe.relayed, Driver.relay_args. f_equal.
      subst N. rewrite substr_last.
      apply separator_recognised, indexOf_spec in Hc. now rewrite Hc.
    + now apply (handlers_after_attach w' st K
                   (fun e => DriverRelay N S
                               (substr N (Z.of_nat (String.length N) - 1) 1) e)).
  - intros ctl Hscope HK.
    destruct (controller_addStore_attaches ctl N S st w calls Hscope Hbus)
      as (w' & Hbus' & _ & Hadd).
    eexists _, _, _, _. split; [exact Hadd|].
    split; [apply get_set|].
    split; [rewrite BUS_set_listeners; exact Hbus'|].
    split; [apply fire_relays; rewrite BUS_set_listeners; exact Hbus'|].
    apply in_map_iff. exists (ControllerRelay N K). split; [reflexivity|].
    now apply (handlers_after_attach w' st K (fun e => ControllerRelay N e)).
Qed.

Lemma store_events_are_relayed_witness :
  exists d1 w1 calls1 new,
    Driver.addStore Samples.shop "cart" 1%nat Samples.page = (Returned d1, w1)
    /\ get (Driver.datastores d1) "cart" = Some 1%nat
    /\ BUS w1 = Some calls1
    /\ Store.fire 1 "record.create" [Samples.created] w1
       = (Returned tt, set_BUS (Some (calls1 ++ new)) w1)
    /\ In (mkCall bus_emit
             [VStr (("shop" +:+ ".") +:+ "cart" +:+ "." +:+ "record.create");
              Samples.created]) new.
Proof.
  apply (proj1 (store_events_are_relayed "shop" "."%char "cart" "record.create"
                  1%nat [Samples.created] Samples.page []
                  (or_intror (or_intror (or_introl eq_refl))) eq_refl)
           Samples.shop eq_refl (or_introl eq_refl)).
Defined.

(** What the Driver of the samples does with the same event: one emission,
    the store-qualified one. *)
Lemma driver_relays_qualified_only :
  let w1 := snd (Driver.constructor Samples.shop_cfg Samples.page) in
  Driver.constructor Samples.shop_cfg Samples.page = (Returned Samples.shop, w1)
  /\ Observe.emitted_names
       (snd (Store.fire 1 "record.create" [Samples.created] w1))
     = ["shop.cart.record.create"].
Proof. split; reflexivity. Qed.

(** ** Overwriting a store *)

(** [addStore] leaves the handlers of every other store where they are. *)
Lemma driver_addStore_keeps_handlers (d : Driver.t) (N S K : string)
  (st old : nat) (w : World) (calls : list BusCall) :
  Driver.scope d = Some N -> BUS w = Some calls -> old <> st ->
  handlers (snd (Driver.addStore d S st w)) old K = handlers w old K.
Proof.
  intros Hscope Hbus Hne.
  destruct (driver_addStore_attaches d N S st w calls Hscope Hbus)
    as (w' & _ & Hls & ->).
  unfold handlers. cbn [snd]. destruct w'; simpl in *.
  rewrite lookup_insert_ne by congruence. now rewrite Hls.
Qed.

Lemma controller_addStore_keeps_handlers (c : Controller.t) (N S K : string)
  (st old : nat) (w : World) (calls : list BusCall) :
  Controller.scope c = Some N -> BUS w = Some calls -> old <> st ->
  handlers (snd (Controller.addStore c S st w)) old K = handlers w old K.
Proof.
  intros Hscope Hbus Hne.
  destruct (controller_addStore_attaches c N S st w calls Hscope Hbus)
    as (w' & _ & Hls & ->).
  unfold handlers. cbn [snd]. destruct w'; simpl in *.
  rewrite lookup_insert_ne by congruence. now rewrite Hls.
Qed.

(** C3.  A Driver with the namespace [shop.] holds store 1 under [cart];
    [addStore('cart', store2)] logs the warning and calls [NGN.BUS.off] for
    the eleven names [shop.]+kind, but the handlers attached to store 1
    stay: firing [record.create] on store 1 afterwards still reaches the bus
    as [shop.cart.record.create].  A Controller does the same with
    [shop.record.create]. *)
Theorem overwritten_store_still_relays :
  let w1 := snd (Driver.constructor Samples.shop_cfg Samples.page) in
  let r := Driver.addStore Samples.shop "cart" 2%nat w1 in
  let w2 := snd r in
  let w3 := snd (Store.fire 1 "record.create" [Samples.created] w2) in
  let v1 := snd (Controller.constructor Samples.desk_cfg Samples.page) in
  let v2 := snd (Controller.addStore Samples.desk "cart" 2%nat v1) in
  let v3 := snd (Store.fire 1 "record.create" [Samples.created] v2) in
  Driver.constructor Samples.shop_cfg Samples.page = (Returned Samples.shop, w1)
  /\ fst r = Returned (Driver.set_datastores [("cart", 2%nat)] Samples.shop)
  /\ Observe.warned w2 = true
  /\ Observe.bus_received
       (map (fun e => mkCall bus_off [VStr ("shop." +:+ e)]) Driver.dataevents)
       w1 w2
  /\ handlers w2 1%nat "record.create" = handlers w1 1%nat "record.create"
  /\ Observe.bus_received
       [mkCall bus_emit [VStr "shop.cart.record.create"; Samples.created]]
       w2 w3
  /\ Observe.warned v2 = true
  /\ Observe.bus_received
       [mkCall bus_emit [VStr "shop.record.create"; Samples.created]] v2 v3.
Proof.
  repeat split; try reflexivity; eexists; split; reflexivity.
Qed.

(** ** Without the bus *)

(** Every [on] of a Driver ends in a TypeError while [NGN.BUS] is missing. *)
Lemma driver_on_needs_bus (d : Driver.t) (args : list Value) (w : World) :
  BUS w = None -> fst (Driver.on d args w) = Threw TypeError.
Proof.
  intros Hbus. unfold Driver.on.
  destruct (_ && String.eqb (typeof _) "object").
  - unfold Driver.pool.
    destruct (String.eqb (typeof (Driver.argument args 0)) "object");
      unfold BUS_receive; now rewrite Hbus.
  - destruct (_ && Driver.is_template_render _).
    + erewrite bind_returned by (erewrite bind_returned by reflexivity;
                                 reflexivity).
      unfold Driver.namespaced, BUS_member, mbind, M_bind. simpl.
      now rewrite Hbus.
    + erewrite bind_returned by reflexivity.
      unfold Driver.namespaced, BUS_member, mbind, M_bind.
      now rewrite Hbus.
Qed.

(** [Controller.on] while [NGN.BUS] is missing: a warning, and nothing
    else. *)
Lemma controller_on_without_bus (c : Controller.t) (topic : string)
  (h : Value) (w : World) :
  BUS w = None ->
  Controller.on c topic h w
  = (Returned tt,
     set_console
       (console w ++
          [mkLog warn
             ("NGNX.Controller.on('" +:+ topic
              +:+ "', ...) will not work because NGN.BUS is not available.")
             []]) w).
Proof.
  intros Hbus. unfold Controller.on.
  erewrite bind_returned by reflexivity. now rewrite Hbus.
Qed.

(** C7.  On a page without [NGN.BUS], [on('click', handler)] and
    [once('click', handler)] of a Driver throw a TypeError and log nothing,
    where [Controller.on] logs its warning and returns. *)
Theorem driver_on_throws_without_bus :
  Driver.constructor Samples.plain_cfg Samples.busless
  = (Returned Samples.plain, Samples.busless)
  /\ Driver.on Samples.plain [VStr "click"; Samples.handler] Samples.busless
     = (Threw TypeError, Samples.busless)
  /\ Driver.once Samples.plain [VStr "click"; Samples.handler] Samples.busless
     = (Threw TypeError, Samples.busless)
  /\ Observe.warned Samples.busless = false
  /\ fst (Controller.on Samples.desk "click" Samples.handler Samples.busless)
     = Returned tt
  /\ Observe.warned
       (snd (Controller.on Samples.desk "click" Samples.handler
               Samples.busless)) = true.
Proof. repeat split. Qed.

(** ** Calls whose first argument is not a string *)

Lemma append_empty_r (s : string) : s +:+ "" = s.
Proof.
  induction s as [|c s IH]; [reflexivity|].
  change (String c (s +:+ "") = String c s). now rewrite IH.
Qed.

Lemma not_string_not_template_render (v : Value) :
  typeof v <> "string" -> Driver.is_template_render v = false.
Proof. destruct v; simpl; congruence. Qed.

(** Without a string in front, [applyNamespace] hands back its own
    [arguments], and the primitive is called once with that. *)
Lemma applyNamespace_passthrough (d : Driver.t) (args : list Value)
  (w : World) :
  args = [] \/ typeof (Driver.argument args 0) <> "string" ->
  Driver.applyNamespace d args w = (Returned (Some [VArguments args]), w).
Proof.
  intros Hargs. unfold Driver.applyNamespace.
  destruct args as [|a args]; [reflexivity|].
  destruct Hargs as [Hnil|Hty]; [discriminate|].
  unfold Driver.argument in Hty. simpl in Hty. simpl.
  now destruct (String.eqb_spec (typeof a) "string").
Qed.

Lemma namespaced_passthrough (p : BusPrimitive) (d : Driver.t)
  (args : list Value) (w : World) (calls : list BusCall) :
  BUS w = Some calls ->
  args = [] \/ typeof (Driver.argument args 0) <> "string" ->
  Driver.namespaced p d args w
  = (Returned tt, set_BUS (Some (calls ++ [mkCall p [VArguments args]])) w).
Proof.
  intros Hbus Hargs. unfold Driver.namespaced.
  erewrite bind_returned by (unfold BUS_member; now rewrite Hbus).
  erewrite bind_returned by now apply applyNamespace_passthrough.
  unfold BUS_receive. now rewrite Hbus.
Qed.

Lemma attach_passthrough (d : Driver.t) (args : list Value) (w : World)
  (calls : list BusCall) :
  BUS w = Some calls ->
  args = [] \/ typeof (Driver.argument args 0) <> "string" ->
  Driver.attach d args w
  = (Returned (attached (externals w) [VArguments args]),
     set_BUS (Some (calls ++ [mkCall bus_attach [VArguments args]])) w).
Proof.
  intros Hbus Hargs. unfold Driver.attach.
  erewrite bind_returned by (unfold BUS_member; now rewrite Hbus).
  erewrite bind_returned by now apply applyNamespace_passthrough.
  erewrite bind_returned by (unfold BUS_receive; now rewrite Hbus).
  reflexivity.
Qed.

(** C5, on [once] and [on].  Called with a handler map, [once] throws and
    the bus sees nothing, and [on] goes to [NGN.BUS.pool]: neither call
    reaches [NGN.BUS.once] or [NGN.BUS.on]. *)
Lemma object_argument_is_not_forwarded :
  let handlers := VObj [("click", Samples.handler)] in
  let thrown := Driver.once Samples.shop [handlers] Samples.page in
  let pooled := Driver.on Samples.shop [handlers] Samples.page in
  thrown
  = (Threw (Error "Nested/pooled events (object) are only supported for the on() method."),
     Samples.page)
  /\ ~ Observe.bus_received [mkCall bus_once [handlers]]
         Samples.page (snd thrown)
  /\ BUS (snd pooled) = Some [mkCall bus_pool [VStr "shop."; handlers]]
  /\ ~ Observe.bus_received [mkCall bus_on [handlers]]
         Samples.page (snd pooled).
Proof.
  split; [reflexivity|]. split; [|split; [reflexivity|]];
    intros (calls & Hbefore & Hafter); injection Hbefore as <-;
    vm_compute in Hafter; discriminate.
Qed.

(** C5, as the code has it.  While the bus is there, a call with no
    arguments or with a first argument that is not a string makes [emit],
    [forward], [delayEmit], [threshold] and [attach] call their bus primitive
    exactly once, the namespace applied to nothing; [on] and [once] do the
    same unless the first argument is an object, in which case [on] hands it
    to [NGN.BUS.pool] under the trimmed namespace and [once] throws without
    calling the bus. *)
Theorem unnamed_calls_skip_the_namespace (d : Driver.t) (args : list Value)
  (w : World) (calls : list BusCall) :
  BUS w = Some calls ->
  args = [] \/ typeof (Driver.argument args 0) <> "string" ->
  let passed p :=
    (Returned tt, set_BUS (Some (calls ++ [mkCall p [VArguments args]])) w) in
  Driver.emit d args w = passed bus_emit
  /\ Driver.forward d args w = passed bus_forward
  /\ Driver.delayEmit d args w = passed bus_delayEmit
  /\ Driver.threshold d args w = passed bus_threshold
  /\ Driver.attach d args w
     = (Returned (attached (externals w) [VArguments args]),
        set_BUS (Some (calls ++ [mkCall bus_attach [VArguments args]])) w)
  /\ (args = [] \/ typeof (Driver.argument args 0) <> "object" ->
      Driver.on d args w = passed bus_on
      /\ Driver.once d args w = passed bus_once)
  /\ (args <> [] -> typeof (Driver.argument args 0) = "object" ->
      Driver.on d args w
      = (Returned tt,
         set_BUS
           (Some (calls ++
                    [mkCall bus_pool
                       [ (let s := trim (coalesce (Driver.scope d) "") in
                          if 0 <? Z.of_nat (String.length s)
                          then VStr s else VNull);
                         Driver.argument args 0 ]])) w)
      /\ Driver.once d args w
         = (Threw (Error "Nested/pooled events (object) are only supported for the on() method."),
            w)).
Proof.
  intros Hbus Hargs passed.
  pose proof (fun p => namespaced_passthrough p d args w calls Hbus Hargs)
    as Hpass.
  repeat (split; [apply Hpass|]).
  split; [|split].
  - now apply attach_passthrough.
  - intros Hobj.
    assert (Hfront : (0 <? Z.of_nat (length args))
                     && String.eqb (typeof (Driver.argument args 0)) "object"
                     = false).
    { destruct Hobj as [->|Hobj]; [reflexivity|].
      apply andb_false_iff. right. now apply String.eqb_neq. }
    assert (Hrender : (0 <? Z.of_nat (length args))
                      && Driver.is_template_render (Driver.argument args 0)
                      = false).
    { destruct Hargs as [->|Hty]; [reflexivity|].
      apply andb_false_iff. right. now apply not_string_not_template_render. }
    unfold Driver.on, Driver.once. rewrite Hfront, Hrender.
    split; (erewrite bind_returned by reflexivity; apply Hpass).
  - intros Hne Hobj.
    assert (Hfront : (0 <? Z.of_nat (length args))
                     && String.eqb (typeof (Driver.argument args 0)) "object"
                     = true).
    { apply andb_true_iff. split; [|now apply String.eqb_eq].
      destruct args; [congruence | reflexivity]. }
    unfold Driver.on, Driver.once. rewrite Hfront. split; [|reflexivity].
    unfold Driver.pool. rewrite Hobj. simpl. rewrite append_empty_r.
    unfold BUS_receive. now rewrite Hbus.
Qed.

Lemma unnamed_calls_skip_the_namespace_witness :
  Driver.emit Samples.shop [VNum "404"; Samples.created] Samples.page
  = (Returned tt,
     set_BUS
       (Some ([] ++ [mkCall bus_emit
                       [VArguments [VNum "404"; Samples.created]]]))
       Samples.page).
Proof.
  refine (proj1 (unnamed_calls_skip_the_namespace Samples.shop
                   [VNum "404"; Samples.created] Samples.page [] eq_refl _)).
  right. simpl. discriminate.
Defined.

(** ** Rendering *)

Ltac run :=
  cbv [mbind M_bind mret M_ret world update throw console_warn console_error
       BUS_member BUS_receive Driver.call];
  simpl.

(** An unregistered template name stops [render] at once: the error names
    the template and the world is as before. *)
Lemma render_unregistered (d : Driver.t) (name : string)
  (data parent callback : Value) (position : option string) (w : World) :
  Driver.templates d !! name = None ->
  Driver.render d name data parent position callback w
  = (Threw (Error ("The Driver does not have a reference to a template called "
                   +:+ trim name +:+ ".")), w).
Proof. intros H. unfold Driver.render. now rewrite H. Qed.

(** Data whose [typeof] is not [object] stops [render] after one
    [console.error]: nothing is fetched, looked up or emitted. *)
Lemma render_non_object (d : Driver.t) (name source : string)
  (data parent callback : Value) (position : option string) (w : World) :
  Driver.templates d !! name = Some source ->
  let data' := match data with VEntity r => r | _ => data end in
  typeof data' <> "object" ->
  Driver.render d name data parent position callback w
  = (Threw (Error "The data provided to the renderer could not be processed because it is not a key/value object."),
     set_console (console w ++ [mkLog error "Invalid Data" [data']]) w).
Proof.
  intros Htpl data' Hty. unfold Driver.render. rewrite Htpl.
  fold data'. destruct (String.eqb_spec (typeof data') "object") as [Heq|_];
    [contradiction|].
  reflexivity.
Qed.

(** C6.  The template [view] is registered and the data is [null]:
    [render] does not throw.  With a callback it fetches the template and
    hands the element over; with a parent element it fetches, inserts and
    emits. *)
Theorem render_accepts_null_data :
  let called :=
    Driver.render Samples.shop "view" VNull Samples.handler None VUndefined
      Samples.page in
  let inserted :=
    Driver.render Samples.shop "view" VNull (VElement 3) None VUndefined
      Samples.page in
  Driver.templates Samples.shop !! "view" = Some "./views/cart.html"
  /\ fst called = Returned tt
  /\ requests (snd called) = [("./views/cart.html", VNull)]
  /\ invoked (snd called) = [(Samples.handler, [VElement 7])]
  /\ fst inserted = Returned tt
  /\ requests (snd inserted) = [("./views/cart.html", VNull)]
  /\ Observe.emitted_names (snd inserted)
     = ["shop.template.rendered"; "template.rendered"; "template.render"].
Proof. repeat split. Qed.

(** ** References *)

(** Creating a reference under a name that [NGNX.REF] already holds changes
    nothing at all: no registry entry, no property, no console output. *)
Lemma createReference_registered (d : Driver.t) (name selector old : string)
  (w : World) :
  selector <> "" ->
  NGNX_REF w !! (Driver.id d +:+ "-" +:+ name) = Some old ->
  Driver.createReference d name selector w = (Returned d, w).
Proof.
  intros Hsel Hold. unfold Driver.createReference. simpl.
  destruct (String.eqb_spec selector "") as [Heq|_]; [contradiction|].
  simpl. erewrite bind_returned by reflexivity. now rewrite Hold.
Qed.

(** C8.  Registering [nav] a second time, with another selector, leaves
    the first selector in place and writes nothing to the console, in the
    Driver and in the Controller alike. *)
Theorem second_reference_is_dropped_silently :
  let first := Driver.createReference Samples.plain "nav" "header > nav"
                 Samples.page in
  let d1 := Driver.set_ref {["nav" := "0b9f6c1e-nav"]} Samples.plain in
  let second := Driver.createReference d1 "nav" "footer > nav" (snd first) in
  let taken := set_NGN_ref {["nav" := "header > nav"]} Samples.page in
  let built :=
    Controller.constructor
      (Controller.mkConfig None (Some [("nav", "footer > nav")]) None) taken in
  fst first = Returned d1
  /\ NGNX_REF (snd first) !! "0b9f6c1e-nav" = Some "header > nav"
  /\ second = (Returned d1, snd first)
  /\ NGNX_REF (snd second) !! "0b9f6c1e-nav" = Some "header > nav"
  /\ console (snd second) = []
  /\ fst built = Returned (Controller.mk None [("nav", "footer > nav")] [] [])
  /\ NGN_ref (snd built) !! "nav" = Some "header > nav"
  /\ console (snd built) = [].
Proof. repeat split. Qed.

(** The three completion events, on a page with a bus. *)
Lemma templateRendered_emits (d : Driver.t) (element : Value) (w : World)
  (calls : list BusCall) :
  BUS w = Some calls ->
  Driver.templateRendered d element w
  = (Returned tt,
     set_BUS
       (Some (calls ++
                [ mkCall bus_emit
                    [VStr (concat_null (Driver.scope d) "template.rendered");
                     element];
                  mkCall bus_emit [VStr "template.rendered"; element];
                  mkCall bus_emit [VStr "template.render"; element] ])) w).
Proof.
  intros Hbus. unfold Driver.templateRendered. run. rewrite Hbus. simpl.
  destruct w; unfold set_BUS; simpl. now rewrite <- !app_assoc.
Qed.

(** [adjustedRender] at the default position: the content becomes the last
    child of the parent, then the three events go out. *)
Lemma adjustedRender_beforeend (d : Driver.t) (p : nat) (content : Value)
  (n : Node) (callback : Value) (w : World) (calls : list BusCall) :
  Driver.as_node content = Some n ->
  BUS w = Some calls ->
  let r := Driver.adjustedRender d (VElement p) content "beforeend" callback w
  in
  fst r = Returned tt
  /\ Driver.place_of (snd r) p
     = mkPlace (preceding (Driver.place_of w p))
         (children (Driver.place_of w p) ++ [n])
         (following (Driver.place_of w p))
  /\ BUS (snd r)
     = Some (calls ++
               [ mkCall bus_emit
                   [VStr (concat_null (Driver.scope d) "template.rendered");
                    content];
                 mkCall bus_emit [VStr "template.rendered"; content];
                 mkCall bus_emit [VStr "template.render"; content] ])
  /\ requests (snd r) = requests w
  /\ externals (snd r) = externals w.
Proof.
  intros Hnode Hbus. unfold Driver.adjustedRender. simpl.
  unfold Driver.insertAdjacent. rewrite Hnode. simpl.
  erewrite bind_returned by (erewrite bind_returned by reflexivity; reflexivity).
  erewrite bind_returned
    by (apply templateRendered_emits; simpl; exact Hbus).
  erewrite bind_returned by reflexivity.
  simpl.
  destruct (isFn callback && _); simpl;
    unfold Driver.place_of; simpl; rewrite lookup_insert_eq; simpl;
    repeat split.
Qed.

Lemma toLowerCase_beforeend : toLowerCase "beforeend" = "beforeend".
Proof. reflexivity. Qed.

(** [render] with a registered template, object data, a parent that is (or
    resolves to) the element [p] and no position: the run of
    [adjustedRender] at [beforeend], after one template request. *)
Lemma render_reaches_adjustedRender (d : Driver.t) (name source : string)
  (data parent callback : Value) (p : nat) (element content : Value)
  (w : World) :
  Driver.templates d !! name = Some source ->
  let data' := match data with VEntity r => r | _ => data end in
  typeof data' = "object" ->
  (parent = VElement p
   \/ exists sel, parent = VStr sel /\ querySelector (externals w) sel = Some p) ->
  NET_template (externals w) source data' = Some element ->
  match DOM_svg_update (externals w) with
  | Some svg_update => svg_update element = Some content
  | None => content = element
  end ->
  exists w2,
    BUS w2 = BUS w /\ document w2 = document w /\ externals w2 = externals w
    /\ requests w2 = requests w ++ [(source, data')]
    /\ Driver.render d name data parent None callback w
       = Driver.adjustedRender d (VElement p) content "beforeend" callback w2.
Proof.
  intros Htpl data' Hty Hparent Hfetch Hsvg.
  unfold Driver.render. rewrite Htpl. fold data'. rewrite Hty.
  change (negb (String.eqb "object" "object")) with false. cbv iota.
  destruct Hparent as [-> | (sel & -> & Hq)].
  - change (String.eqb (typeof (VElement p)) "function") with false. cbv iota.
    exists (set_requests (requests w ++ [(source, data')]) w).
    repeat (split; [reflexivity|]).
    run. rewrite Hfetch.
    destruct (DOM_svg_update (externals w)) as [svg_update|].
    + now rewrite Hsvg.
    + now subst content.
  - change (String.eqb (typeof (VStr sel)) "function") with false. cbv iota.
    exists (set_requests (requests w ++ [(source, data')])
              (set_queries (queries w ++ [sel]) w)).
    repeat (split; [reflexivity|]).
    run. rewrite Hq. simpl. rewrite Hfetch.
    destruct (DOM_svg_update (externals w)) as [svg_update|].
    + now rewrite Hsvg.
    + now subst content.
Qed.

(** The whole default render, in the terms of the code. *)
Lemma render_default (d : Driver.t) (name source : string)
  (data parent callback : Value) (p : nat) (element content : Value)
  (n : Node) (w : World) (calls : list BusCall) :
  Driver.templates d !! name = Some source ->
  let data' := match data with VEntity r => r | _ => data end in
  typeof data' = "object" ->
  (parent = VElement p
   \/ exists sel, parent = VStr sel /\ querySelector (externals w) sel = Some p) ->
  NET_template (externals w) source data' = Some element ->
  match DOM_svg_update (externals w) with
  | Some svg_update => svg_update element = Some content
  | None => content = element
  end ->
  Driver.as_node content = Some n ->
  BUS w = Some calls ->
  let r := Driver.render d name data parent None callback w in
  fst r = Returned tt
  /\ Driver.place_of (snd r) p
     = mkPlace (preceding (Driver.place_of w p))
         (children (Driver.place_of w p) ++ [n])
         (following (Driver.place_of w p))
  /\ BUS (snd r)
     = Some (calls ++
               [ mkCall bus_emit
                   [VStr (concat_null (Driver.scope d) "template.rendered");
                    content];
                 mkCall bus_emit [VStr "template.rendered"; content];
                 mkCall bus_emit [VStr "template.render"; content] ]).
Proof.
  intros Htpl data' Hty Hparent Hfetch Hsvg Hnode Hbus r.
  destruct (render_reaches_adjustedRender d name source data parent callback
              p element content w Htpl Hty Hparent Hfetch Hsvg)
    as (w2 & Hbus2 & Hdoc2 & _ & _ & Hrender).
  subst r. rewrite Hrender.
  assert (Hbus' : BUS w2 = Some calls) by now rewrite Hbus2.
  destruct (adjustedRender_beforeend d p content n callback w2 calls
              Hnode Hbus') as (Hret & Hplace & Hemit & _).
  assert (Hsame : Driver.place_of w2 p = Driver.place_of w p).
  { unfold Driver.place_of. now rewrite Hdoc2. }
  rewrite Hplace, Hsame. now repeat split.
Qed.

(** C9.  A render that succeeds with a parent and no position puts the
    rendered content after the last child of the parent and makes the bus
    receive exactly three emissions carrying it: the namespaced
    [template.rendered], the global [template.rendered] and the deprecated
    global [template.render]. *)
Theorem default_render_appends_and_announces (d : Driver.t)
  (name source : string) (data parent callback : Value) (p : nat)
  (element content : Value) (n : Node) (w : World) (calls : list BusCall) :
  Driver.templates d !! name = Some source ->
  let data' := match data with VEntity r => r | _ => data end in
  typeof data' = "object" ->
  (parent = VElement p
   \/ exists sel, parent = VStr sel /\ querySelector (externals w) sel = Some p) ->
  NET_template (externals w) source data' = Some element ->
  match DOM_svg_update (externals w) with
  | Some svg_update => svg_update element = Some content
  | None => content = element
  end ->
  Driver.as_node content = Some n ->
  BUS w = Some calls ->
  let r := Driver.render d name data parent None callback w in
  fst r = Returned tt
  /\ preceding (Driver.place_of (snd r) p) = preceding (Driver.place_of w p)
  /\ children (Driver.place_of (snd r) p)
     = children (Driver.place_of w p) ++ [n]
  /\ following (Driver.place_of (snd r) p) = following (Driver.place_of w p)
  /\ BUS (snd r)
     = Some (calls ++
               [ mkCall bus_emit
                   [VStr (match Driver.scope d with
                          | Some N => N +:+ "template.rendered"
                          | None => "nulltemplate.rendered"
                          end); content];
                 mkCall bus_emit [VStr "template.rendered"; content];
                 mkCall bus_emit [VStr "template.render"; content] ]).
Proof.
  intros Htpl data' Hty Hparent Hfetch Hsvg Hnode Hbus r.
  destruct (render_default d name source data parent callback p element
              content n w calls Htpl Hty Hparent Hfetch Hsvg Hnode Hbus)
    as (Hret & Hplace & Hemit).
  subst r. rewrite Hplace, Hemit. simpl.
  split; [exact Hret|]. repeat (split; [reflexivity|]).
  now destruct (Driver.scope d).
Qed.

Lemma default_render_appends_and_announces_witness :
  let r := Driver.render Samples.shop "view" Samples.created (VElement 3) None
             VUndefined Samples.page in
  fst r = Returned tt
  /\ preceding (Driver.place_of (snd r) 3)
     = preceding (Driver.place_of Samples.page 3)
  /\ children (Driver.place_of (snd r) 3)
     = children (Driver.place_of Samples.page 3) ++ [Elem 7]
  /\ following (Driver.place_of (snd r) 3)
     = following (Driver.place_of Samples.page 3)
  /\ BUS (snd r)
     = Some ([] ++
               [ mkCall bus_emit
                   [VStr ("shop." +:+ "template.rendered"); VElement 7];
                 mkCall bus_emit [VStr "template.rendered"; VElement 7];
                 mkCall bus_emit [VStr "template.render"; VElement 7] ]).
Proof.
  exact (default_render_appends_and_announces Samples.shop "view"
           "./views/cart.html" Samples.created (VElement 3) VUndefined 3%nat
           (VElement 7) (VElement 7) (Elem 7) Samples.page []
           eq_refl eq_refl (or_introl eq_refl) eq_refl eq_refl eq_refl eq_refl).
Defined.

(** C10.  A Driver constructed without a namespace has a null scope; each
    completed render then emits its first completion event under the name
    [nulltemplate.rendered], followed by the global [template.rendered] and
    [template.render], so that without a namespace the namespaced event and
    the global one do not coincide. *)
Theorem unscoped_render_emits_nulltemplate (cfg : Driver.Config)
  (w0 w1 : World) (d : Driver.t) :
  Driver.constructor cfg w0 = (Returned d, w1) ->
  Driver.cfg_namespace cfg = None \/ Driver.cfg_namespace cfg = Some "" ->
  Driver.scope d = None
  /\ (forall (element : Value) (w : World) (calls : list BusCall),
        BUS w = Some calls ->
        Driver.templateRendered d element w
        = (Returned tt,
           set_BUS
             (Some (calls ++
                      [ mkCall bus_emit [VStr "nulltemplate.rendered"; element];
                        mkCall bus_emit [VStr "template.rendered"; element];
                        mkCall bus_emit [VStr "template.render"; element] ]))
             w))
  /\ (forall (name source : string) (data parent callback : Value) (p : nat)
        (element content : Value) (n : Node) (w : World)
        (calls : list BusCall),
        Driver.templates d !! name = Some source ->
        typeof (match data with VEntity r => r | _ => data end) = "object" ->
        (parent = VElement p
         \/ exists sel,
              parent = VStr sel /\ querySelector (externals w) sel = Some p) ->
        NET_template (externals w) source
          (match data with VEntity r => r | _ => data end) = Some element ->
        match DOM_svg_update (externals w) with
        | Some svg_update => svg_update element = Some content
        | None => content = element
        end ->
        Driver.as_node content = Some n ->
        BUS w = Some calls ->
        let r := Driver.render d name data parent None callback w in
        fst r = Returned tt
        /\ BUS (snd r)
           = Some (calls ++
                     [ mkCall bus_emit [VStr "nulltemplate.rendered"; content];
                       mkCall bus_emit [VStr "template.rendered"; content];
                       mkCall bus_emit [VStr "template.render"; content] ]))
  /\ concat_null (Driver.scope d) "template.rendered" <> "template.rendered".
Proof.
  intros Hnew Hns.
  apply constructor_fields in Hnew as (Hscope & _ & _).
  assert (Hnull : Driver.scope d = None).
  { rewrite Hscope. now destruct Hns as [-> | ->]. }
  split; [exact Hnull|]. split; [|split].
  - intros element w calls Hbus.
    rewrite (templateRendered_emits d element w calls Hbus).
    now rewrite Hnull.
  - intros name source data parent callback p element content n w calls
      Htpl Hty Hparent Hfetch Hsvg Hnode Hbus r.
    destruct (render_default d name source data parent callback p element
                content n w calls Htpl Hty Hparent Hfetch Hsvg Hnode Hbus)
      as (Hret & _ & Hemit).
    subst r. split; [exact Hret|]. rewrite Hemit. now rewrite Hnull.
  - rewrite Hnull. discriminate.
Qed.

Lemma unscoped_render_emits_nulltemplate_witness :
  Driver.templateRendered Samples.plain (VElement 7) Samples.page
  = (Returned tt,
     set_BUS
       (Some ([] ++
                [ mkCall bus_emit [VStr "nulltemplate.rendered"; VElement 7];
                  mkCall bus_emit [VStr "template.rendered"; VElement 7];
                  mkCall bus_emit [VStr "template.render"; VElement 7] ]))
       Samples.page).
Proof.
  exact (proj1 (proj2 (unscoped_render_emits_nulltemplate Samples.plain_cfg
                         Samples.page Samples.page Samples.plain
                         eq_refl (or_introl eq_refl)))
           (VElement 7) Samples.page [] eq_refl).
Defined.

(** With a namespace the two names differ as well: a configured scope is
    never empty. *)
Lemma scoped_name_differs (cfg : Driver.Config) (w0 w1 : World)
  (d : Driver.t) :
  Driver.constructor cfg w0 = (Returned d, w1) ->
  concat_null (Driver.scope d) "template.rendered" <> "template.rendered".
Proof.
  intros Hnew. apply constructor_fields in Hnew as (Hscope & _ & _).
  rewrite Hscope. destruct (Driver.cfg_namespace cfg) as [N|]; simpl;
    [|discriminate].
  destruct (String.eqb_spec N "") as [->|HN]; simpl; [discriminate|].
  intros H.
  apply (f_equal String.length) in H. rewrite length_append in H.
  destruct N; [congruence | simpl in H; lia].
Qed.


(** * Further properties of the two classes *)

(** ** The other namespacing methods *)

(** [forward], [delayEmit], [threshold], [thresholdOnce] and [attach] name
    their bus call like [emit] does: the scope (nothing when it is null) in
    front of the event name, the other arguments as given; [attach] returns
    what the bus returns for that call. *)
Theorem remaining_methods_prepend_scope (d : Driver.t) (E : string)
  (rest : list Value) (w : World) (calls : list BusCall) :
  BUS w = Some calls ->
  let name :=
    match Driver.scope d with Some N => N +:+ E | None => E end in
  let sent p :=
    (Returned tt,
     set_BUS (Some (calls ++ [mkCall p (VStr name :: rest)])) w) in
  Driver.forward d (VStr E :: rest) w = sent bus_forward
  /\ Driver.delayEmit d (VStr E :: rest) w = sent bus_delayEmit
  /\ Driver.threshold d (VStr E :: rest) w = sent bus_threshold
  /\ Driver.thresholdOnce d (VStr E :: rest) w = sent bus_thresholdOnce
  /\ Driver.attach d (VStr E :: rest) w
     = (Returned (attached (externals w) (VStr name :: rest)),
        set_BUS (Some (calls ++ [mkCall bus_attach (VStr name :: rest)])) w).
Proof.
  intros Hbus name sent.
  assert (Hname : coalesce (Driver.scope d) "" +:+ E = name).
  { subst name. now destruct (Driver.scope d). }
  subst sent. cbv beta. rewrite <- Hname.
  repeat (split; [apply namespaced_string; exact Hbus|]).
  unfold Driver.attach.
  erewrite bind_returned by (unfold BUS_member; now rewrite Hbus).
  unfold Driver.applyNamespace. run. now rewrite !Hbus.
Qed.

Lemma remaining_methods_prepend_scope_witness :
  Driver.forward Samples.shop [VStr "paid"; VStr "ledger.paid"] Samples.page
  = (Returned tt,
     set_BUS
       (Some ([] ++ [mkCall bus_forward
                       [VStr ("shop." +:+ "paid"); VStr "ledger.paid"]]))
       Samples.page).
Proof.
  exact (proj1 (remaining_methods_prepend_scope Samples.shop "paid"
                  [VStr "ledger.paid"] Samples.page [] eq_refl)).
Defined.

(** ** Subscribing to the completion events through the driver *)

Lemma append_cancel_l (s a b : string) : s +:+ a = s +:+ b -> a = b.
Proof.
  induction s as [|c s IH]; simpl; intros H; [exact H|].
  injection H as H. now apply IH.
Qed.

(** A driver that subscribes to [template.rendered] through its own [on]
    listens to a name its [templateRendered] emits: the namespaced event when
    a scope is set, the global one when it is not. *)
Theorem rendered_subscription_is_served (d : Driver.t) (h element : Value)
  (w : World) (calls : list BusCall) :
  BUS w = Some calls ->
  exists name new,
    BUS (snd (Driver.on d [VStr "template.rendered"; h] w))
    = Some (calls ++ [mkCall bus_on [VStr name; h]])
    /\ Driver.templateRendered d element w
       = (Returned tt, set_BUS (Some (calls ++ new)) w)
    /\ In (mkCall bus_emit [VStr name; element]) new.
Proof.
  intros Hbus.
  destruct (on_string d "template.rendered" [h] w calls Hbus) as [_ Hon].
  eexists _, _. split; [exact Hon|].
  split; [apply templateRendered_emits; exact Hbus|].
  destruct (Driver.scope d); simpl; tauto.
Qed.

Lemma rendered_subscription_is_served_witness :
  exists name new,
    BUS (snd (Driver.on Samples.plain
                [VStr "template.rendered"; Samples.handler] Samples.page))
    = Some ([] ++ [mkCall bus_on [VStr name; Samples.handler]])
    /\ Driver.templateRendered Samples.plain (VElement 7) Samples.page
       = (Returned tt, set_BUS (Some ([] ++ new)) Samples.page)
    /\ In (mkCall bus_emit [VStr name; VElement 7]) new.
Proof.
  exact (rendered_subscription_is_served Samples.plain Samples.handler
           (VElement 7) Samples.page [] eq_refl).
Defined.

(** With a scope N set, [on('template.render', h)] logs the deprecation
    notice and subscribes to N+[template.render], a name that
    [templateRendered] never emits: the deprecated alias goes out without
    the scope. *)
Theorem deprecated_alias_is_not_served (d : Driver.t) (N : string)
  (h element : Value) (w : World) (calls : list BusCall) :
  Driver.scope d = Some N -> N <> "" ->
  BUS w = Some calls ->
  let r := Driver.on d [VStr "template.render"; h] w in
  fst r = Returned tt
  /\ console (snd r)
     = console w ++ [mkLog warn Driver.deprecation_notice
                       [VStr (css (externals w)); VStr ""]]
  /\ BUS (snd r)
     = Some (calls ++ [mkCall bus_on [VStr (N +:+ "template.render"); h]])
  /\ exists new,
       Driver.templateRendered d element w
       = (Returned tt, set_BUS (Some (calls ++ new)) w)
       /\ forall c, In c new ->
            received c <> [VStr (N +:+ "template.render"); element].
Proof.
  intros Hscope HN Hbus r.
  destruct (on_string d "template.render" [h] w calls Hbus) as [Hret Hon].
  rewrite Hscope in Hon. simpl in Hon.
  split; [exact Hret|]. split.
  { subst r. unfold Driver.on. simpl.
    erewrite bind_returned by reflexivity.
    erewrite namespaced_string by (simpl; exact Hbus). reflexivity. }
  split; [exact Hon|].
  eexists. split; [apply templateRendered_emits; exact Hbus|].
  rewrite Hscope. simpl.
  intros c [<-|[<-|[<-|[]]]]; simpl; intros Heq; injection Heq as Heq.
  - apply append_cancel_l in Heq. discriminate.
  - destruct N as [|a [|b [|c' N]]]; try discriminate.
    apply (f_equal String.length) in Heq. simpl in Heq.
    rewrite length_append in Heq. simpl in Heq. lia.
  - apply (f_equal String.length) in Heq. rewrite length_append in Heq.
    destruct N; [congruence | simpl in Heq; lia].
Qed.

Lemma deprecated_alias_is_not_served_witness :
  let r := Driver.on Samples.shop [VStr "template.render"; Samples.handler]
             Samples.page in
  BUS (snd r)
  = Some ([] ++ [mkCall bus_on
                   [VStr ("shop." +:+ "template.render"); Samples.handler]]).
Proof.
  refine (proj1 (proj2 (proj2
            (deprecated_alias_is_not_served Samples.shop "shop."
               Samples.handler (VElement 7) Samples.page [] eq_refl _
               eq_refl)))).
  discriminate.
Defined.

(** ** The branches of [render] *)

(** With a function in the place of the parent, [render] requests the
    template and hands the element to that function when the fetch
    completes; the page, the bus and the console are left alone, so no
    completion event goes out. *)
Theorem callback_render_leaves_page_and_bus (d : Driver.t)
  (name source : string) (data : Value) (f : nat) (text : string)
  (position : option string) (callback : Value) (w : World) :
  Driver.templates d !! name = Some source ->
  let data' := match data with VEntity r => r | _ => data end in
  typeof data' = "object" ->
  Driver.render d name data (VFun f text) position callback w
  = (Returned tt,
     let w1 := set_requests (requests w ++ [(source, data')]) w in
     match NET_template (externals w) source data' with
     | Some element => set_invoked (invoked w ++ [(VFun f text, [element])]) w1
     | None => w1
     end).
Proof.
  intros Htpl data' Hty. unfold Driver.render. rewrite Htpl. fold data'.
  rewrite Hty. run. now destruct (NET_template (externals w) source data').
Qed.

Lemma callback_render_leaves_page_and_bus_witness :
  Driver.render Samples.shop "view" Samples.created Samples.handler None
    VUndefined Samples.page
  = (Returned tt,
     set_invoked [(Samples.handler, [VElement 7])]
       (set_requests [("./views/cart.html", Samples.created)] Samples.page)).
Proof.
  exact (callback_render_leaves_page_and_bus Samples.shop "view"
           "./views/cart.html" Samples.created 1%nat "function (e) {}" None
           VUndefined Samples.page eq_refl eq_refl).
Defined.

(** A parent selector that matches nothing ends [render] with one warning:
    it returns without requesting the template and without throwing. *)
Theorem unresolved_parent_aborts_render (d : Driver.t) (name source sel : string)
  (data callback : Value) (position : option string) (w : World) :
  Driver.templates d !! name = Some source ->
  typeof (match data with VEntity r => r | _ => data end) = "object" ->
  querySelector (externals w) sel = None ->
  Driver.render d name data (VStr sel) position callback w
  = (Returned tt,
     set_console
       (console w ++
          [mkLog warn
             ("%c" +:+ sel +:+ "%c is not a valid selector or the referenced parent DOM element could not be found.")
             [VStr (css (externals w)); VStr ""]])
       (set_queries (queries w ++ [sel]) w)).
Proof.
  intros Htpl Hty Hq. unfold Driver.render. rewrite Htpl, Hty. run.
  now rewrite Hq.
Qed.

Lemma unresolved_parent_aborts_render_witness :
  fst (Driver.render Samples.shop "view" Samples.created (VStr "#cart") None
         VUndefined Samples.page) = Returned tt
  /\ requests (snd (Driver.render Samples.shop "view" Samples.created
                      (VStr "#cart") None VUndefined Samples.page)) = [].
Proof.
  rewrite (unresolved_parent_aborts_render Samples.shop "view"
             "./views/cart.html" "#cart" Samples.created VUndefined None
             Samples.page eq_refl eq_refl eq_refl).
  split; reflexivity.
Defined.

(** When the template fetch, or the SVG pass after it, never calls back,
    [render] with a parent element has recorded the request and done nothing
    else. *)
Theorem pending_fetch_renders_nothing (d : Driver.t) (name source : string)
  (data callback : Value) (p : nat) (position : option string) (w : World) :
  Driver.templates d !! name = Some source ->
  let data' := match data with VEntity r => r | _ => data end in
  typeof data' = "object" ->
  (NET_template (externals w) source data' = None
   \/ exists element svg_update,
        NET_template (externals w) source data' = Some element
        /\ DOM_svg_update (externals w) = Some svg_update
        /\ svg_update element = None) ->
  Driver.render d name data (VElement p) position callback w
  = (Returned tt, set_requests (requests w ++ [(source, data')]) w).
Proof.
  intros Htpl data' Hty Hpending. unfold Driver.render.
  rewrite Htpl. fold data'. rewrite Hty. run.
  destruct Hpending as [-> | (element & svg_update & -> & -> & ->)];
    reflexivity.
Qed.

Lemma pending_fetch_renders_nothing_witness :
  Driver.render Samples.shop "view" Samples.created (VElement 3) None
    VUndefined Samples.stalled
  = (Returned tt,
     set_requests
       (requests Samples.stalled ++ [("./views/cart.html", Samples.created)])
       Samples.stalled).
Proof.
  exact (pending_fetch_renders_nothing Samples.shop "view" "./views/cart.html"
           Samples.created VUndefined 3%nat None Samples.stalled eq_refl
           eq_refl (or_introl eq_refl)).
Defined.

(** ** The positions of [adjustedRender] *)

(** A position that, trimmed and lower-cased, is none of [beforebegin],
    [afterbegin] and [afterend] is replaced by [beforeend]: the content ends
    up after the last child and the three events carry it. *)
Theorem unknown_position_falls_back (d : Driver.t) (p : nat)
  (content callback : Value) (position : string) (n : Node) (w : World)
  (calls : list BusCall) :
  ~ In (toLowerCase (trim position)) ["beforebegin"; "afterbegin"; "afterend"] ->
  Driver.as_node content = Some n ->
  BUS w = Some calls ->
  let r := Driver.adjustedRender d (VElement p) content position callback w in
  r = Driver.adjustedRender d (VElement p) content "beforeend" callback w
  /\ fst r = Returned tt
  /\ children (Driver.place_of (snd r) p)
     = children (Driver.place_of w p) ++ [n]
  /\ BUS (snd r)
     = Some (calls ++
               [ mkCall bus_emit
                   [VStr (concat_null (Driver.scope d) "template.rendered");
                    content];
                 mkCall bus_emit [VStr "template.rendered"; content];
                 mkCall bus_emit [VStr "template.render"; content] ]).
Proof.
  intros Hpos Hnode Hbus r.
  assert (Heq : r = Driver.adjustedRender d (VElement p) content "beforeend"
                      callback w).
  { subst r. unfold Driver.adjustedRender.
    apply indexOf_absent in Hpos.
    assert (Hlt : (indexOf ["beforebegin"; "afterbegin"; "afterend"]
                     (toLowerCase (trim position)) <? 0) = true).
    { apply Z.ltb_lt. apply Z.leb_gt in Hpos. exact Hpos. }
    rewrite Hlt. reflexivity. }
  split; [exact Heq|]. rewrite Heq.
  destruct (adjustedRender_beforeend d p content n callback w calls
              Hnode Hbus) as (Hret & Hplace & Hemit & _).
  split; [exact Hret|]. split; [now rewrite Hplace | exact Hemit].
Qed.

Lemma unknown_position_falls_back_witness :
  children
    (Driver.place_of
       (snd (Driver.adjustedRender Samples.shop (VElement 3) (VStr "<li></li>")
               "inside" VUndefined Samples.page)) 3)
  = children (Driver.place_of Samples.page 3) ++ [Parsed "<li></li>"].
Proof.
  refine (proj1 (proj2 (proj2
            (unknown_position_falls_back Samples.shop 3%nat (VStr "<li></li>")
               VUndefined "inside" (Parsed "<li></li>") Samples.page []
               _ eq_refl eq_refl)))).
  vm_compute. intros [H|[H|[H|[]]]]; discriminate H.
Defined.



(** Without [NGN.BUS] the content is inserted first and the TypeError comes
    after: the page has changed, nothing was emitted and the callback was
    not called. *)
Theorem render_inserts_before_bus_fails (d : Driver.t) (p : nat)
  (content callback : Value) (n : Node) (w : World) :
  Driver.as_node content = Some n ->
  BUS w = None ->
  Driver.adjustedRender d (VElement p) content "beforeend" callback w
  = (Threw TypeError,
     set_document
       (<[p := mkPlace (preceding (Driver.place_of w p))
                 (children (Driver.place_of w p) ++ [n])
                 (following (Driver.place_of w p))]> (document w)) w).
Proof.
  intros Hnode Hbus. unfold Driver.adjustedRender. simpl.
  unfold Driver.insertAdjacent. rewrite Hnode. simpl.
  erewrite bind_returned by (erewrite bind_returned by reflexivity; reflexivity).
  erewrite bind_threw; [reflexivity|].
  unfold Driver.templateRendered.
  erewrite bind_threw; [reflexivity|].
  unfold BUS_receive. simpl. now rewrite Hbus.
Qed.

Lemma render_inserts_before_bus_fails_witness :
  Driver.adjustedRender Samples.plain (VElement 3) (VElement 7) "beforeend"
    Samples.handler Samples.busless
  = (Threw TypeError,
     set_document
       (<[3%nat := mkPlace (preceding (Driver.place_of Samples.busless 3))
                     (children (Driver.place_of Samples.busless 3) ++ [Elem 7])
                     (following (Driver.place_of Samples.busless 3))]>
          (document Samples.busless)) Samples.busless).
Proof.
  exact (render_inserts_before_bus_fails Samples.plain 3%nat (VElement 7)
           Samples.handler (Elem 7) Samples.busless eq_refl eq_refl).
Defined.

(** ** Stores without a namespace, without a bus, and registered twice *)

(** Without a scope, [addStore] only records the store: it attaches no
    handler and calls no bus primitive, so it also works before [NGN.BUS]
    exists; it logs that the scope is missing, after the overwrite warning
    when the name was taken.  The Driver and the Controller agree. *)
Theorem unscoped_addStore_only_registers (S : string) (st : nat) (w : World) :
  (forall d : Driver.t,
     Driver.scope d = None ->
     Driver.addStore d S st w
     = (Returned (Driver.set_datastores (set (Driver.datastores d) S st) d),
        set_console
          (console w
           ++ (if hasOwnProperty (Driver.datastores d) S
               then [mkLog warn
                       ("Driver already had a reference to %c" +:+ S
                        +:+ "%c, which has been overwritten.")
                       [VStr (css (externals w)); VStr ""]]
               else [])
           ++ [mkLog warn
                 "Driver.scopeStoreEvents called without a defined namespace."
                 []]) w))
  /\
  (forall c : Controller.t,
     Controller.scope c = None ->
     Controller.addStore c S st w
     = (Returned
          (Controller.set_datastores (set (Controller.datastores c) S st) c),
        set_console
          (console w
           ++ (if hasOwnProperty (Controller.datastores c) S
               then [mkLog warn
                       ("Controller already had a reference to " +:+ S
                        +:+ ", which has been overwritten.") []]
               else [])
           ++ [mkLog warn
                 "Controller.scopeStoreEvents called without a defined scope."
                 []]) w)).
Proof.
  split.
  - intros d Hscope. unfold Driver.addStore, Driver.scopeStoreEvents.
    simpl. rewrite Hscope.
    destruct (hasOwnProperty (Driver.datastores d) S); run;
      destruct w; unfold set_console; simpl; now rewrite <- ?app_assoc.
  - intros c Hscope. unfold Controller.addStore, Controller.scopeStoreEvents.
    simpl. rewrite Hscope.
    destruct (hasOwnProperty (Controller.datastores c) S); run;
      destruct w; unfold set_console; simpl; now rewrite <- ?app_assoc.
Qed.

Lemma unscoped_addStore_only_registers_witness :
  listeners (snd (Driver.addStore Samples.plain "cart" 1%nat Samples.busless))
  = listeners Samples.busless
  /\ get (Driver.datastores
            match fst (Driver.addStore Samples.plain "cart" 1%nat
                         Samples.busless) with
            | Returned d => d
            | Threw _ => Samples.plain
            end) "cart" = Some 1%nat.
Proof.
  rewrite (proj1 (unscoped_addStore_only_registers "cart" 1%nat
                    Samples.busless) Samples.plain eq_refl).
  split; reflexivity.
Defined.

Lemma handlers_same_listeners (a b : World) (st : nat) (K : string) :
  listeners a = listeners b -> handlers a st K = handlers b st K.
Proof. intros H. unfold handlers. now rewrite H. Qed.



(** [scopeStoreEvents] for a name the facade does not hold: with a scope it
    throws a TypeError and attaches nothing; without a scope it never looks
    the store up, and with [suppress] set it is silent as well. *)
Theorem scopeStoreEvents_on_unknown_name (S : string) (w : World) :
  (forall (d : Driver.t) (N : string) (suppress : option bool),
     Driver.scope d = Some N -> get (Driver.datastores d) S = None ->
     Driver.scopeStoreEvents d S suppress w = (Threw TypeError, w))
  /\ (forall (c : Controller.t) (N : string) (suppress : option bool),
        Controller.scope c = Some N -> get (Controller.datastores c) S = None ->
        Controller.scopeStoreEvents c S suppress w = (Threw TypeError, w))
  /\ (forall d : Driver.t,
        Driver.scope d = None ->
        Driver.scopeStoreEvents d S (Some true) w = (Returned tt, w))
  /\ (forall c : Controller.t,
        Controller.scope c = None ->
        Controller.scopeStoreEvents c S (Some true) w = (Returned tt, w)).
Proof.
  repeat split.
  - intros d N suppress Hscope Hget. unfold Driver.scopeStoreEvents.
    rewrite Hscope. simpl. unfold mbind, M_bind. now rewrite Hget.
  - intros c N suppress Hscope Hget. unfold Controller.scopeStoreEvents.
    rewrite Hscope. simpl. unfold mbind, M_bind. now rewrite Hget.
  - intros d Hscope. unfold Driver.scopeStoreEvents. now rewrite Hscope.
  - intros c Hscope. unfold Controller.scopeStoreEvents. now rewrite Hscope.
Qed.

Lemma scopeStoreEvents_on_unknown_name_witness :
  Driver.scopeStoreEvents Samples.shop "orders" None Samples.page
  = (Threw TypeError, Samples.page).
Proof.
  exact (proj1 (scopeStoreEvents_on_unknown_name "orders" Samples.page)
           Samples.shop "shop." None eq_refl eq_refl).
Defined.

(** [addStore] and a missing bus.  A new name needs no bus: the store is
    recorded and its relays are attached.  Overwriting a name calls
    [NGN.BUS.off] first, so it throws a TypeError before anything is
    recorded, attached or logged. *)
Theorem addStore_needs_bus_only_to_overwrite (d : Driver.t) (N S : string)
  (st : nat) (w : World) :
  Driver.scope d = Some N ->
  BUS w = None ->
  (hasOwnProperty (Driver.datastores d) S = false ->
   Driver.addStore d S st w
   = (Returned (Driver.set_datastores (set (Driver.datastores d) S st) d),
      set_listeners
        (<[st := default [] (listeners w !! st)
                 ++ map (fun e =>
                           (e, DriverRelay N S
                                 (substr N (Z.of_nat (String.length N) - 1) 1)
                                 e))
                      Driver.dataevents]> (listeners w)) w))
  /\ (hasOwnProperty (Driver.datastores d) S = true ->
      Driver.addStore d S st w = (Threw TypeError, w)).
Proof.
  intros Hscope Hbus. split; intros Hhas; unfold Driver.addStore;
    rewrite Hhas.
  - erewrite bind_returned by reflexivity.
    erewrite bind_returned; cycle 1.
    { apply scopeStoreEvents_attaches; [exact Hscope | apply get_set]. }
    reflexivity.
  - rewrite Hscope. erewrite bind_threw; [reflexivity|].
    erewrite bind_threw; [reflexivity|].
    simpl. unfold mbind, M_bind, BUS_receive. now rewrite Hbus.
Qed.

Lemma addStore_needs_bus_only_to_overwrite_witness :
  Driver.addStore Samples.shop "cart" 2%nat Samples.busless
  = (Threw TypeError, Samples.busless).
Proof.
  exact (proj2 (addStore_needs_bus_only_to_overwrite Samples.shop "shop."
                  "cart" 2%nat Samples.busless eq_refl eq_refl) eq_refl).
Defined.

(** ** References *)

(** A first [createReference] stores the selector in [NGNX.REF] under
    id + [-] + name and makes the short name resolve to it; every other
    entry of the registry and the rest of the world stay as they were. *)
Theorem createReference_registers (d : Driver.t) (name selector : string)
  (w : World) :
  selector <> "" ->
  NGNX_REF w !! (Driver.id d +:+ "-" +:+ name) = None ->
  Driver.ref d !! name = None ->
  exists d' w',
    Driver.createReference d name selector w = (Returned d', w')
    /\ (exists key, Driver.ref d' !! name = Some key
                    /\ NGNX_REF w' !! key = Some selector)
    /\ (forall k, k <> Driver.id d +:+ "-" +:+ name ->
                  NGNX_REF w' !! k = NGNX_REF w !! k)
    /\ (forall n, n <> name -> Driver.ref d' !! n = Driver.ref d !! n)
    /\ w' = set_NGNX_REF (NGNX_REF w') w.
Proof.
  intros Hsel Hfree Hnew. unfold Driver.createReference. simpl.
  destruct (String.eqb_spec selector "") as [Heq|_]; [contradiction|].
  simpl. eexists _, _. split.
  { erewrite bind_returned by reflexivity. rewrite Hfree.
    erewrite bind_returned by reflexivity. rewrite Hnew. reflexivity. }
  split; [|split; [|split]].
  - eexists. split; simpl; apply lookup_insert_eq.
  - intros k Hk. simpl. now apply lookup_insert_ne.
  - intros n Hn. simpl. now apply lookup_insert_ne.
  - reflexivity.
Qed.

Lemma createReference_registers_witness :
  exists d' w',
    Driver.createReference Samples.plain "nav" "header > nav" Samples.page
    = (Returned d', w')
    /\ (exists key, Driver.ref d' !! "nav" = Some key
                    /\ NGNX_REF w' !! key = Some "header > nav")
    /\ (forall k, k <> Driver.id Samples.plain +:+ "-" +:+ "nav" ->
                  NGNX_REF w' !! k = NGNX_REF Samples.page !! k)
    /\ (forall n, n <> "nav" ->
                  Driver.ref d' !! n = Driver.ref Samples.plain !! n)
    /\ w' = set_NGNX_REF (NGNX_REF w') Samples.page.
Proof.
  refine (createReference_registers Samples.plain "nav" "header > nav"
            Samples.page _ eq_refl eq_refl).
  discriminate.
Defined.






(** ** The Controller's constructor *)

Lemma get_of_key {V : Type} (o : list (string * V)) (k : string) :
  In k (keys o) -> exists v, get o k = Some v.
Proof.
  induction o as [|[k' v'] o IH]; simpl; [contradiction|].
  intros [->|Hin].
  - rewrite String.eqb_refl. eauto.
  - destruct (String.eqb k' k); eauto.
Qed.

Lemma get_not_key {V : Type} (o : list (string * V)) (k : string) :
  ~ In k (keys o) -> get o k = None.
Proof.
  induction o as [|[k' v'] o IH]; simpl; [reflexivity|].
  intros Hnot. destruct (String.eqb_spec k' k) as [->|_]; [tauto|].
  apply IH. tauto.
Qed.

Lemma set_NGN_ref_same (w : World) : set_NGN_ref (NGN_ref w) w = w.
Proof. now destruct w. Qed.

(** The constructor's loop over the references: what was registered stays,
    what was missing is registered. *)
Lemma controller_registers_missing (refs : list (string * string))
  (names : list string) (w : World) :
  exists R,
    forEach names (fun r =>
      w ← world;
      match NGN_ref w !! r with
      | None =>
          update (set_NGN_ref
                    (<[r := default "" (get refs r)]> (NGN_ref w)))
      | Some _ => mret tt
      end) w
    = (Returned tt, set_NGN_ref R w)
    /\ forall r,
         R !! r
         = match NGN_ref w !! r with
           | Some old => Some old
           | None => if bool_decide (r ∈ names)
                     then Some (default "" (get refs r)) else None
           end.
Proof.
  revert w. induction names as [|n names IH]; intros w.
  - exists (NGN_ref w). split; [simpl; now rewrite set_NGN_ref_same|].
    intros r. now destruct (NGN_ref w !! r).
  - cbn [forEach]. erewrite bind_returned; cycle 1.
    { erewrite bind_returned by reflexivity. cbv beta.
      instantiate (1 := match NGN_ref w !! n with
                        | None => set_NGN_ref
                                    (<[n := default "" (get refs n)]> (NGN_ref w)) w
                        | Some _ => w
                        end).
      instantiate (1 := tt). now destruct (NGN_ref w !! n). }
    destruct (NGN_ref w !! n) as [old|] eqn:Hn.
    + destruct (IH w) as (R & Hrun & HR). exists R. split; [exact Hrun|].
      intros r. rewrite HR. destruct (NGN_ref w !! r) eqn:Hr; [reflexivity|].
      assert (r <> n) by congruence.
      destruct (bool_decide_reflect (r ∈ names)) as [Hin|Hnot];
        destruct (bool_decide_reflect (r ∈ n :: names)) as [Hin'|Hnot'];
        try reflexivity; rewrite elem_of_cons in *; tauto.
    + destruct (IH (set_NGN_ref (<[n := default "" (get refs n)]> (NGN_ref w)) w))
        as (R & Hrun & HR).
      exists R. split.
      { rewrite Hrun. now destruct w. }
      intros r. rewrite HR. cbn [NGN_ref set_NGN_ref].
      destruct (decide (n = r)) as [<-|Hne].
      * rewrite lookup_insert_eq, Hn.
        destruct (bool_decide_reflect (n ∈ n :: names)) as [_|Hnot];
          [reflexivity | rewrite elem_of_cons in Hnot; tauto].
      * rewrite lookup_insert_ne by exact Hne.
        destruct (NGN_ref w !! r); [reflexivity|].
        destruct (bool_decide_reflect (r ∈ names)) as [Hin|Hnot];
          destruct (bool_decide_reflect (r ∈ n :: names)) as [Hin'|Hnot'];
          try reflexivity; rewrite elem_of_cons in *; intuition congruence.
Qed.

(** The constructor's loop over the stores only attaches handlers. *)
Lemma controller_scopes_all (c : Controller.t) (N : string)
  (names : list string) (w : World) :
  Controller.scope c = Some N ->
  (forall n, In n names -> In n (keys (Controller.datastores c))) ->
  exists L,
    forEach names (fun name => Controller.scopeStoreEvents c name None) w
    = (Returned tt, set_listeners L w).
Proof.
  intros Hscope. revert w. induction names as [|n names IH]; intros w Hkeys.
  - exists (listeners w). simpl. now destruct w.
  - destruct (get_of_key (Controller.datastores c) n (Hkeys n (or_introl eq_refl)))
      as [st Hst].
    cbn [forEach].
    rewrite (bind_returned _ _ _ _ _
               (controller_scopeStoreEvents_attaches c N n st None w
                  Hscope Hst)).
    match goal with
    | |- context [forEach names _ ?w1] => destruct (IH w1) as (L & HL)
    end.
    { intros m Hm. apply Hkeys. now right. }
    exists L. rewrite HL. now destruct w.
Qed.

(** [new NGNX.Controller(cfg)] never throws and never touches the bus or
    the console.  Afterwards [NGN.ref] holds every reference it held before,
    unchanged, and each configured reference that was missing. *)
Theorem controller_constructor_registers_missing_references
  (cfg : Controller.Config) (w : World) :
  exists w',
    Controller.constructor cfg w
    = (Returned
         (Controller.mk (Driver.configured_scope (Controller.cfg_scope cfg))
            (default [] (Controller.cfg_references cfg))
            (default [] (Controller.cfg_stores cfg)) []), w')
    /\ BUS w' = BUS w
    /\ console w' = console w
    /\ forall r,
         NGN_ref w' !! r
         = match NGN_ref w !! r with
           | Some old => Some old
           | None => get (default [] (Controller.cfg_references cfg)) r
           end.
Proof.
  unfold Controller.constructor.
  set (refs := default [] (Controller.cfg_references cfg)).
  set (this := Controller.mk _ refs _ []).
  cbn [Controller.references Controller.scope Controller.datastores].
  destruct (controller_registers_missing refs (keys refs) w)
    as (R & Hrefs & HR).
  assert (Hlookup : forall r,
            R !! r = match NGN_ref w !! r with
                     | Some old => Some old
                     | None => get refs r
                     end).
  { intros r. rewrite HR. destruct (NGN_ref w !! r); [reflexivity|].
    destruct (bool_decide_reflect (r ∈ keys refs)) as [Hin|Hnot].
    - apply list_elem_of_In in Hin.
      destruct (get_of_key refs r Hin) as [v ->]. reflexivity.
    - rewrite get_not_key; [reflexivity|].
      intros Hin. apply Hnot. now apply list_elem_of_In. }
  change (Controller.references this) with refs.
  erewrite bind_returned by exact Hrefs.
  destruct (Driver.configured_scope (Controller.cfg_scope cfg)) as [N|] eqn:HN.
  - destruct (controller_scopes_all this N (keys (Controller.datastores this))
                (set_NGN_ref R w) eq_refl (fun n H => H)) as (L & HL).
    change (Controller.scope this) with (Some N) in HL.
    cbn [Controller.datastores this] in HL |- *.
    erewrite bind_returned by exact HL.
    eexists. split; [reflexivity|]. now repeat split.
  - erewrite bind_returned by reflexivity.
    eexists. split; [reflexivity|]. now repeat split.
Qed.

(** ** One-time handlers from the configuration *)

Lemma append_assoc (a b c : string) : (a +:+ b) +:+ c = a +:+ b +:+ c.
Proof.
  induction a as [|x a IH]; [reflexivity|].
  change (String x ((a +:+ b) +:+ c) = String x (a +:+ b +:+ c)).
  now rewrite IH.
Qed.

Lemma once_string_run (d : Driver.t) (E : string) (rest : list Value)
  (w : World) (calls : list BusCall) :
  BUS w = Some calls ->
  exists w',
    Driver.once d (VStr E :: rest) w = (Returned tt, w')
    /\ BUS w'
       = Some (calls ++
                 [mkCall bus_once
                    (VStr (coalesce (Driver.scope d) "" +:+ E) :: rest)]).
Proof.
  intros Hbus. destruct (once_string d E rest w calls Hbus) as [Hret Hb].
  destruct (Driver.once d (VStr E :: rest) w) as [[[]|t] w'];
    [|discriminate]. now exists w'.
Qed.

(** [initializeOneOffEvent] walks a nested handler object depth first: the
    bus receives one [once] call per handler function, in key order, named
    by the scope followed by the keys on the way down joined with dots. *)
Theorem nested_once_handlers_are_flattened (d : Driver.t)
  (h : Driver.Handlers) :
  forall (eventName : string) (namespace : option string) (w : World)
         (calls : list BusCall),
    BUS w = Some calls ->
    let r := Driver.initializeOneOffEvent d eventName h namespace w in
    fst r = Returned tt
    /\ BUS (snd r)
       = Some (calls ++
                 map (fun leaf =>
                        mkCall bus_once
                          [VStr (coalesce (Driver.scope d) "" +:+ fst leaf);
                           snd leaf])
                   (Observe.leaves (coalesce namespace "" +:+ eventName) h)).
Proof.
  revert h. fix IH 1. intros [f source|members] eventName namespace w calls Hbus.
  - cbn [Driver.initializeOneOffEvent Observe.leaves map fst snd].
    destruct (once_string_run d (coalesce namespace "" +:+ eventName)
                [VFun f source] w calls Hbus) as (w' & -> & Hb).
    now split.
  - cbn [Driver.initializeOneOffEvent Observe.leaves].
    set (path := coalesce namespace "" +:+ eventName).
    revert w calls Hbus.
    induction members as [|[name h'] members IHm]; intros w calls Hbus.
    + cbn. rewrite app_nil_r. now split.
    + cbv zeta.
      destruct (IH h' name (Some (coalesce namespace "" +:+ eventName +:+ "."))
                  w calls Hbus) as [Hret Hb].
      cbn [coalesce] in Hret, Hb.
      destruct (Driver.initializeOneOffEvent d name h'
                  (Some (coalesce namespace "" +:+ eventName +:+ ".")) w)
        as [[[]|t] w1] eqn:Hrun; [|discriminate].
      cbn [snd] in Hb.
      rewrite (bind_returned _ _ _ _ _ Hrun).
      destruct (IHm w1 _ Hb) as [Hret2 Hb2].
      split; [exact Hret2|].
      cbv zeta in Hb2. rewrite Hb2.
      rewrite map_app, <- app_assoc.
      replace ((coalesce namespace "" +:+ eventName +:+ ".") +:+ name)
        with (path +:+ "." +:+ name); [reflexivity|].
      subst path. now rewrite !append_assoc.
Qed.

Lemma nested_once_handlers_are_flattened_witness :
  let r :=
    Driver.initializeOneOffEvent Samples.shop "cart"
      (Driver.Group
         [("open", Driver.Handler 1 "function (e) {}");
          ("item", Driver.Group [("add", Driver.Handler 2 "function (e) {}")])])
      None Samples.page in
  BUS (snd r)
  = Some ([] ++
            [ mkCall bus_once
                [VStr ("shop." +:+ "cart.open"); VFun 1 "function (e) {}"];
              mkCall bus_once
                [VStr ("shop." +:+ "cart.item.add"); VFun 2 "function (e) {}"] ]).
Proof.
  exact (proj2 (nested_once_handlers_are_flattened Samples.shop
                  (Driver.Group
                     [("open", Driver.Handler 1 "function (e) {}");
                      ("item",
                       Driver.Group [("add", Driver.Handler 2 "function (e) {}")])])
                  "cart" None Samples.page [] eq_refl)).
Defined.

(** ** Stores given to the constructor *)

Lemma keeps_bind {A B : Type} (m : M A) (f : A -> M B) :
  Observe.keeps_listeners m -> (forall a, Observe.keeps_listeners (f a)) ->
  Observe.keeps_listeners (m ≫= f).
Proof.
  intros Hm Hf w. unfold mbind, M_bind. specialize (Hm w).
  destruct (m w) as [[a|t] w1]; cbn [snd] in *; [|exact Hm].
  now rewrite Hf.
Qed.

Lemma keeps_ret {A : Type} (a : A) : Observe.keeps_listeners (mret a).
Proof. intros w. reflexivity. Qed.

Lemma keeps_throw {A : Type} (t : Thrown) :
  Observe.keeps_listeners (@throw A t).
Proof. intros w. reflexivity. Qed.

Lemma keeps_world : Observe.keeps_listeners world.
Proof. intros w. reflexivity. Qed.

Lemma keeps_console_warn (msg : string) (rest : list Value) :
  Observe.keeps_listeners (console_warn msg rest).
Proof. intros w. reflexivity. Qed.

Lemma keeps_BUS_member : Observe.keeps_listeners BUS_member.
Proof. intros w. unfold BUS_member. now destruct (BUS w). Qed.

Lemma keeps_BUS_receive (p : BusPrimitive) (args : list Value) :
  Observe.keeps_listeners (BUS_receive p args).
Proof. intros w. unfold BUS_receive. now destruct (BUS w). Qed.

Lemma keeps_forEach {A : Type} (l : list A) (f : A -> M unit) :
  (forall x, Observe.keeps_listeners (f x)) ->
  Observe.keeps_listeners (forEach l f).
Proof.
  intros Hf. induction l as [|x l IH]; simpl.
  - apply keeps_ret.
  - apply keeps_bind; [apply Hf | intros _; exact IH].
Qed.

Lemma keeps_applyNamespace (d : Driver.t) (args : list Value) :
  Observe.keeps_listeners (Driver.applyNamespace d args).
Proof.
  unfold Driver.applyNamespace.
  destruct (Z.of_nat (length args) =? 0); [apply keeps_ret|].
  destruct (negb _); [apply keeps_ret|].
  apply keeps_bind; [apply keeps_world|]. intros w.
  destruct (BUS w); [apply keeps_ret|].
  apply keeps_bind; [apply keeps_console_warn | intros _; apply keeps_ret].
Qed.

Lemma keeps_namespaced (p : BusPrimitive) (d : Driver.t) (args : list Value) :
  Observe.keeps_listeners (Driver.namespaced p d args).
Proof.
  unfold Driver.namespaced.
  apply keeps_bind; [apply keeps_BUS_member | intros _].
  apply keeps_bind; [apply keeps_applyNamespace | intros a].
  apply keeps_BUS_receive.
Qed.

Lemma keeps_pool (d : Driver.t) (extra data : Value) :
  Observe.keeps_listeners (Driver.pool d extra data).
Proof.
  unfold Driver.pool. destruct (String.eqb (typeof extra) "object");
    apply keeps_BUS_receive.
Qed.

Lemma keeps_once (d : Driver.t) (args : list Value) :
  Observe.keeps_listeners (Driver.once d args).
Proof.
  unfold Driver.once. destruct (_ && String.eqb _ "object");
    [apply keeps_throw|].
  apply keeps_bind; [|intros _; apply keeps_namespaced].
  destruct (_ && Driver.is_template_render _); [|apply keeps_ret].
  apply keeps_bind; [apply keeps_world | intros w; apply keeps_console_warn].
Qed.

Lemma keeps_initializeOneOffEvent (d : Driver.t) (h : Driver.Handlers) :
  forall (eventName : string) (namespace : option string),
    Observe.keeps_listeners
      (Driver.initializeOneOffEvent d eventName h namespace).
Proof.
  revert h. fix IH 1. intros [f source|members] eventName namespace.
  - cbn [Driver.initializeOneOffEvent]. apply keeps_once.
  - cbn [Driver.initializeOneOffEvent].
    induction members as [|[name h'] members IHm].
    + apply keeps_ret.
    + apply keeps_bind; [apply IH | intros _; exact IHm].
Qed.



(** The tail of the constructor, after the stores are scoped. *)
Lemma keeps_constructor_tail (this : Driver.t) :
  Observe.keeps_listeners
    ((if truthy (Driver.initialpool this)
      then Driver.pool this (Driver.initialpool this) VUndefined
      else mret tt) ;;
     (match Driver.initialpoolonce this with
      | Some handlers =>
          forEach (keys handlers) (fun eventName =>
            match get handlers eventName with
            | Some h => Driver.initializeOneOffEvent this eventName h None
            | None => throw TypeError
            end)
      | None => mret tt
      end) ;;
     (match Driver.initialforwarders this with
      | Some forwarders =>
          forEach (keys forwarders) (fun eventName =>
            Driver.forward this
              [VStr eventName; default VUndefined (get forwarders eventName)])
      | None => mret tt
      end) ;;
     mret this).
Proof.
  apply keeps_bind.
  { destruct (truthy _); [apply keeps_pool | apply keeps_ret]. }
  intros _. apply keeps_bind.
  { destruct (Driver.initialpoolonce this) as [handlers|]; [|apply keeps_ret].
    apply keeps_forEach. intros e.
    destruct (get handlers e);
      [apply keeps_initializeOneOffEvent | apply keeps_throw]. }
  intros _. apply keeps_bind; [|intros _; apply keeps_ret].
  destruct (Driver.initialforwarders this) as [forwarders|]; [|apply keeps_ret].
  apply keeps_forEach. intros e. apply keeps_namespaced.
Qed.

Lemma handlers_grow (w : World) (st0 st : nat) (K : string)
  (new : list (string * Listener)) (h : Listener) :
  In h (handlers w st K) ->
  In h (handlers
          (set_listeners
             (<[st0 := default [] (listeners w !! st0) ++ new]> (listeners w))
             w) st K).
Proof.
  intros Hin. unfold handlers in *. destruct w; simpl in *.
  destruct (decide (st0 = st)) as [->|Hne].
  - rewrite lookup_insert_eq. simpl. rewrite filter_app, map_app.
    apply in_or_app. now left.
  - now rewrite lookup_insert_ne.
Qed.

(** The constructor's loop over the stores of a driver with a scope: it
    returns, the bus is untouched, earlier handlers stay, and every store
    named in the loop carries its relays. *)
Lemma driver_scopes_all (d : Driver.t) (N : string) (names : list string)
  (w : World) :
  Driver.scope d = Some N ->
  (forall n, In n names -> In n (keys (Driver.datastores d))) ->
  exists w',
    forEach names (fun name => Driver.scopeStoreEvents d name None) w
    = (Returned tt, w')
    /\ (forall st K h, In h (handlers w st K) -> In h (handlers w' st K))
    /\ (forall S st K,
          In S names -> get (Driver.datastores d) S = Some st ->
          In K Driver.dataevents ->
          In (DriverRelay N S (substr N (Z.of_nat (String.length N) - 1) 1) K)
            (handlers w' st K)).
Proof.
  intros Hscope. revert w. induction names as [|n names IH]; intros w Hkeys.
  - exists w. split; [reflexivity|]. split; [auto|]. intros S st K [].
  - destruct (get_of_key (Driver.datastores d) n (Hkeys n (or_introl eq_refl)))
      as [st0 Hst0].
    cbn [forEach].
    rewrite (bind_returned _ _ _ _ _
               (scopeStoreEvents_attaches d N n st0 None w Hscope Hst0)).
    match goal with
    | |- context [forEach names _ ?w1] =>
        destruct (IH w1) as (w' & Hrun & Hmono & Hall)
    end.
    { intros m Hm. apply Hkeys. now right. }
    exists w'. split; [exact Hrun|]. split.
    + intros st K h Hin. apply Hmono. now apply handlers_grow.
    + intros S st K [<-|HS] Hget HK; [|now apply Hall].
      apply Hmono. rewrite Hst0 in Hget. injection Hget as <-.
      now apply (handlers_after_attach w st0 K
                   (fun e => DriverRelay N n
                               (substr N (Z.of_nat (String.length N) - 1) 1) e)).
Qed.

Lemma key_of_get {V : Type} (o : list (string * V)) (k : string) (v : V) :
  get o k = Some v -> In k (keys o).
Proof.
  induction o as [|[k' v'] o IH]; simpl; [discriminate|].
  destruct (String.eqb_spec k' k) as [->|_]; [now left|].
  intros H. right. now apply IH.
Qed.

(** A store handed to the constructor of a Driver whose namespace N ends in
    a recognised separator C is relayed like one added later: on the page
    the constructor leaves behind, firing one of the event kinds K on the
    store configured under S makes the bus receive N+S+C+K with the
    payload. *)
Theorem configured_stores_are_relayed (cfg : Driver.Config) (w0 w1 : World)
  (d : Driver.t) (N' : string) (c : ascii) (S K : string) (st : nat)
  (payload : list Value) (calls : list BusCall) :
  let N := N' +:+ String c "" in
  Driver.constructor cfg w0 = (Returned d, w1) ->
  Driver.cfg_namespace cfg = Some N ->
  In c [" "; "-"; "."; "_"; "+"; ":"]%char ->
  get (default [] (Driver.cfg_stores cfg)) S = Some st ->
  In K Driver.dataevents ->
  BUS w1 = Some calls ->
  exists new,
    Store.fire st K payload w1
    = (Returned tt, set_BUS (Some (calls ++ new)) w1)
    /\ In (mkCall bus_emit (VStr (N +:+ S +:+ String c "" +:+ K) :: payload))
         new.
Proof.
  intros N Hnew Hns Hc Hget HK Hbus.
  assert (HN : Driver.configured_scope (Some N) = Some N).
  { subst N. now destruct N'. }
  unfold Driver.constructor in Hnew.
  apply bind_inv in Hnew as (wx & wy & Hw & Hnew). injection Hw as <- <-.
  apply bind_inv in Hnew as (this & wa & Hrefs & Hnew).
  apply createReferences_keeps in Hrefs as [r ->].
  cbn [Driver.scope Driver.set_ref Driver.datastores] in Hnew.
  rewrite Hns, HN in Hnew.
  apply bind_inv in Hnew as ([] & wb & Hstage & Hnew).
  match type of Hstage with
  | forEach ?names (fun name => Driver.scopeStoreEvents ?this name None) _ = _ =>
      destruct (driver_scopes_all this N names wa
                  ltac:(reflexivity) (fun n H => H))
        as (wb' & Hrun & _ & Hall)
  end.
  rewrite Hrun in Hstage. injection Hstage as <-.
  assert (Hkeep : listeners w1 = listeners wb').
  { match type of Hnew with
    | context [Driver.initialpoolonce ?t] =>
        pose proof (keeps_constructor_tail t wb') as Hk
    end.
    match type of Hnew with
    | ?l = _ => replace w1 with (snd l) by now rewrite Hnew
    end.
    exact Hk. }
  exists (map (Observe.relayed payload) (handlers w1 st K)).
  split; [now apply fire_relays|].
  apply in_map_iff.
  exists (DriverRelay N S (substr N (Z.of_nat (String.length N) - 1) 1) K).
  split.
  - unfold Observe.relayed, Driver.relay_args. f_equal. subst N.
    rewrite substr_last.
    apply separator_recognised, indexOf_spec in Hc. now rewrite Hc.
  - rewrite (handlers_same_listeners w1 wb' st K Hkeep).
    apply Hall; [|exact Hget|exact HK].
    now apply key_of_get with (v := st).
Qed.

Lemma configured_stores_are_relayed_witness :
  exists new,
    Store.fire 1 "record.create" [Samples.created]
      (snd (Driver.constructor Samples.shop_cfg Samples.page))
    = (Returned tt,
       set_BUS (Some ([] ++ new))
         (snd (Driver.constructor Samples.shop_cfg Samples.page)))
    /\ In (mkCall bus_emit
             [VStr (("shop" +:+ ".") +:+ "cart" +:+ "." +:+ "record.create");
              Samples.created]) new.
Proof.
  refine (configured_stores_are_relayed Samples.shop_cfg Samples.page
            (snd (Driver.constructor Samples.shop_cfg Samples.page))
            Samples.shop "shop" "."%char "cart" "record.create" 1%nat
            [Samples.created] [] eq_refl eq_refl
            (or_intror (or_intror (or_introl eq_refl))) eq_refl
            (or_introl eq_refl) eq_refl).
Defined.



(** ** Templates added later *)



(** ** The references given to the constructor *)

Lemma createReference_step (d : Driver.t) (name selector : string) (w : World) :
  selector <> "" ->
  (NGNX_REF w !! (Driver.id d +:+ "-" +:+ name) = None ->
   Driver.ref d !! name = None) ->
  Driver.createReference d name selector w
  = match NGNX_REF w !! (Driver.id d +:+ "-" +:+ name) with
    | Some _ => (Returned d, w)
    | None =>
        (Returned
           (Driver.set_ref
              (<[name := Driver.id d +:+ "-" +:+ name]> (Driver.ref d)) d),
         set_NGNX_REF
           (<[Driver.id d +:+ "-" +:+ name := selector]> (NGNX_REF w)) w)
    end.
Proof.
  intros Hsel Hinv. unfold Driver.createReference. simpl.
  destruct (String.eqb_spec selector "") as [Heq|_]; [contradiction|].
  simpl. erewrite bind_returned by reflexivity.
  destruct (NGNX_REF w !! _) eqn:Href; [reflexivity|].
  erewrite bind_returned by reflexivity. now rewrite Hinv.
Qed.

(** The constructor's loop over the references, for selectors that are all
    non-empty.  It returns; a name whose key was free is registered with its
    selector and becomes readable through [ref]; a name whose key was taken
    keeps the selector it had and gets no accessor on this driver. *)
Lemma createReferences_loop (names : list string) :
  forall (d : Driver.t) (w : World),
    (forall n, In n names ->
       exists sel, get (Driver._references d) n = Some sel /\ sel <> "") ->
    (forall n, is_Some (Driver.ref d !! n) ->
       is_Some (NGNX_REF w !! (Driver.id d +:+ "-" +:+ n))) ->
    exists r w',
      Driver.createReferences d names w = (Returned (Driver.set_ref r d), w')
      /\ (forall k s, NGNX_REF w !! k = Some s -> NGNX_REF w' !! k = Some s)
      /\ (forall n, is_Some (NGNX_REF w !! (Driver.id d +:+ "-" +:+ n)) ->
            r !! n = Driver.ref d !! n)
      /\ (forall n, In n names ->
            NGNX_REF w !! (Driver.id d +:+ "-" +:+ n) = None ->
            NGNX_REF w' !! (Driver.id d +:+ "-" +:+ n)
            = get (Driver._references d) n
            /\ r !! n = Some (Driver.id d +:+ "-" +:+ n)).
Proof.
  induction names as [|m names IH]; intros d w Hsel Hinv.
  - exists (Driver.ref d), w. split; [now destruct d|].
    split; [auto|]. split; [auto|]. intros n [].
  - destruct (Hsel m (or_introl eq_refl)) as (sel & Hget & Hne).
    cbn [Driver.createReferences]. rewrite Hget. cbn [default].
    assert (Hfree : NGNX_REF w !! (Driver.id d +:+ "-" +:+ m) = None ->
                    Driver.ref d !! m = None).
    { intros Hnone. destruct (Driver.ref d !! m) as [k|] eqn:Hr; [|reflexivity].
      assert (Hsome : is_Some (Driver.ref d !! m)) by (rewrite Hr; now eexists).
      apply Hinv in Hsome. destruct Hsome as [x Hx]. congruence. }
    pose proof (createReference_step d m sel w Hne Hfree) as Hstep.
    destruct (NGNX_REF w !! (Driver.id d +:+ "-" +:+ m)) as [old|] eqn:Hm;
      rewrite (bind_returned _ _ _ _ _ Hstep).
    + destruct (IH d w (fun n H => Hsel n (or_intror H)) Hinv)
        as (r & w' & Hrun & Hgrow & Hkept & Hnew).
      exists r, w'. split; [exact Hrun|]. split; [exact Hgrow|].
      split; [exact Hkept|].
      intros n [<-|Hin] Hnone; [congruence | now apply Hnew].
    + set (key := Driver.id d +:+ "-" +:+ m) in *.
      set (d1 := Driver.set_ref (<[m := key]> (Driver.ref d)) d).
      set (w1 := set_NGNX_REF (<[key := sel]> (NGNX_REF w)) w).
      destruct (IH d1 w1) as (r & w' & Hrun & Hgrow & Hkept & Hnew).
      { intros n Hin. exact (Hsel n (or_intror Hin)). }
      { intros n Hn. subst d1 w1. cbn in Hn |- *.
        destruct (decide (m = n)) as [<-|Hmn].
        - fold key. eapply mk_is_Some, lookup_insert_eq.
        - rewrite lookup_insert_ne in Hn by exact Hmn.
          apply Hinv in Hn. destruct Hn as [x Hx].
          rewrite lookup_insert_ne; [eapply mk_is_Some, Hx|].
          subst key. intros Heq. apply append_cancel_l in Heq.
          apply append_cancel_l in Heq. contradiction. }
      assert (Hkey : forall n, n <> m -> key <> Driver.id d +:+ "-" +:+ n).
      { intros n Hn Heq. subst key. apply append_cancel_l in Heq.
        apply append_cancel_l in Heq. congruence. }
      exists r, w'. split.
      { rewrite Hrun. now destruct d. }
      split; [|split].
      * intros k s Hk. apply Hgrow. subst w1. cbn.
        destruct (decide (key = k)) as [<-|Hkk]; [congruence|].
        now rewrite lookup_insert_ne.
      * intros n Hn. destruct (decide (n = m)) as [->|Hnm].
        { fold key in Hn. rewrite Hm in Hn. now destruct Hn. }
        rewrite Hkept.
        -- subst d1. cbn. now rewrite lookup_insert_ne by congruence.
        -- subst d1 w1. cbn. rewrite lookup_insert_ne by now apply Hkey.
           exact Hn.
      * intros n Hin Hnone. destruct (decide (n = m)) as [->|Hnm].
        -- split.
           ++ rewrite Hget. apply Hgrow. subst w1. cbn. fold key.
              apply lookup_insert_eq.
           ++ rewrite Hkept.
              ** subst d1. cbn. fold key. apply lookup_insert_eq.
              ** subst d1 w1. cbn. fold key.
                 eapply mk_is_Some, lookup_insert_eq.
        -- destruct Hin as [->|Hin]; [contradiction|].
           apply (Hnew n Hin). subst d1 w1. cbn.
           rewrite lookup_insert_ne by now apply Hkey. exact Hnone.
Qed.

(** When every configured selector is non-empty, the references of a new
    driver are all processed without an error.  A reference whose key in
    [NGNX.REF] was free resolves, through [ref], to its configured selector.
    A reference whose key was taken leaves the registered selector in place
    and is not readable through [ref] on this driver.  Nothing that was
    registered is lost. *)
Theorem configured_references_resolve (d : Driver.t) (w : World) :
  Driver.ref d = ∅ ->
  (forall n sel, get (Driver._references d) n = Some sel -> sel <> "") ->
  exists r w',
    Driver.createReferences d (keys (Driver._references d)) w
    = (Returned (Driver.set_ref r d), w')
    /\ (forall k s, NGNX_REF w !! k = Some s -> NGNX_REF w' !! k = Some s)
    /\ forall n sel,
         get (Driver._references d) n = Some sel ->
         match NGNX_REF w !! (Driver.id d +:+ "-" +:+ n) with
         | None =>
             exists key, r !! n = Some key /\ NGNX_REF w' !! key = Some sel
         | Some old =>
             r !! n = None
             /\ NGNX_REF w' !! (Driver.id d +:+ "-" +:+ n) = Some old
         end.
Proof.
  intros Hempty Hsel.
  destruct (createReferences_loop (keys (Driver._references d)) d w)
    as (r & w' & Hrun & Hgrow & Hkept & Hnew).
  { intros n Hin. destruct (get_of_key _ _ Hin) as [sel Hget].
    exists sel. split; [exact Hget | now apply (Hsel n)]. }
  { intros n [x Hx]. rewrite Hempty, lookup_empty in Hx. discriminate. }
  exists r, w'. split; [exact Hrun|]. split; [exact Hgrow|].
  intros n sel Hget.
  destruct (NGNX_REF w !! (Driver.id d +:+ "-" +:+ n)) as [old|] eqn:Hn.
  - split; [|now apply Hgrow].
    rewrite Hkept by (rewrite Hn; now eexists).
    now rewrite Hempty, lookup_empty.
  - destruct (Hnew n (key_of_get _ _ _ Hget) Hn) as [Hreg Hr].
    eexists. split; [exact Hr|]. now rewrite Hreg.
Qed.

Lemma configured_references_resolve_witness :
  let d := Driver.mk None [("nav", "header > nav"); ("cart", "#cart")] ∅ []
             ∅ VNull None None "main" in
  exists r w',
    Driver.createReferences d (keys (Driver._references d)) Samples.page
    = (Returned (Driver.set_ref r d), w')
    /\ (forall k s, NGNX_REF Samples.page !! k = Some s ->
                    NGNX_REF w' !! k = Some s)
    /\ forall n sel,
         get (Driver._references d) n = Some sel ->
         match NGNX_REF Samples.page !! (Driver.id d +:+ "-" +:+ n) with
         | None =>
             exists key, r !! n = Some key /\ NGNX_REF w' !! key = Some sel
         | Some old =>
             r !! n = None
             /\ NGNX_REF w' !! (Driver.id d +:+ "-" +:+ n) = Some old
         end.
Proof.
  refine (configured_references_resolve
            (Driver.mk None [("nav", "header > nav"); ("cart", "#cart")] ∅ []
               ∅ VNull None None "main") Samples.page eq_refl _).
  intros n sel H Hempty. subst sel. cbv [Driver._references get] in H.
  destruct (String.eqb "nav" n); [discriminate H|].
  destruct (String.eqb "cart" n); discriminate H.
Defined.

(** ** Pools *)

Lemma nonempty_length (s : string) :
  (0 <? Z.of_nat (String.length s)) = negb (String.eqb s "").
Proof. now destruct s. Qed.

(** [pool] hands the handlers to [NGN.BUS.pool] under the scope followed by
    the extra namespace, trimmed, and under [null] when nothing is left of
    it.  Given the handlers as first argument it uses the scope alone and
    ignores its second argument. *)
Theorem pool_combines_namespaces (d : Driver.t) (extra data : Value)
  (w : World) (calls : list BusCall) :
  BUS w = Some calls ->
  let handed (ns : string) (handlers : Value) :=
    (Returned tt,
     set_BUS
       (Some (calls ++
                [mkCall bus_pool
                   [ (if String.eqb (trim ns) "" then VNull
                      else VStr (trim ns));
                     handlers ]])) w) in
  let scope := match Driver.scope d with Some N => N | None => "" end in
  (typeof extra = "object" -> Driver.pool d extra data w = handed scope extra)
  /\ (forall s, extra = VStr s ->
        Driver.pool d extra data w = handed (scope +:+ s) data).
Proof.
  intros Hbus handed scope.
  assert (Hscope : coalesce (Driver.scope d) "" = scope) by reflexivity.
  split.
  - intros Hobj. unfold Driver.pool. rewrite Hobj. simpl.
    rewrite append_empty_r, Hscope, nonempty_length.
    unfold BUS_receive. rewrite Hbus. subst handed. cbv beta.
    now destruct (String.eqb (trim scope) "").
  - intros s ->. unfold Driver.pool. simpl.
    rewrite Hscope, nonempty_length.
    unfold BUS_receive. rewrite Hbus. subst handed. cbv beta.
    now destruct (String.eqb (trim (scope +:+ s)) "").
Qed.

Lemma pool_combines_namespaces_witness :
  Driver.pool Samples.shop (VStr " checkout. ") Samples.created Samples.page
  = (Returned tt,
     set_BUS
       (Some ([] ++
                [mkCall bus_pool
                   [ (if String.eqb (trim ("shop." +:+ " checkout. ")) ""
                      then VNull
                      else VStr (trim ("shop." +:+ " checkout. ")));
                     Samples.created ]])) Samples.page).
Proof.
  exact (proj2 (pool_combines_namespaces Samples.shop (VStr " checkout. ")
                  Samples.created Samples.page [] eq_refl)
           " checkout. " eq_refl).
Defined.
